(** * halogen-go-sdk: the authenticated-request engine of package [wallet]

    A shallow embedding of [jwt.go] (token construction and signing with
    erasure of key material) and of the client part of [wallet/wallet.go]
    (construction with defaults, statically stored credentials), together
    with a model of the request dispatcher, whose source file is not part
    of the tree and is therefore taken from the specification.

    Go values are embedded as follows.
    - [[]byte] slices are references ([loc]) into an explicit heap, because
      [signAndFormat] erases buffers that its caller still holds;
    - [*big.Int] fields of a parsed key are references into the same heap:
      [key.D = big.NewInt(0)] allocates a fresh integer and redirects the
      field, it does not touch the integer the field pointed to before;
    - Go [string]s are [string]s, [int], [int64] and [time.Duration] are
      [Z] with their 64-bit wrap-around written out where the code can reach it;
    - [defer]red functions run after the body, last registered first;
    - the functions of Go's standard library that the code calls
      ([pem.Decode], the [x509] parsers, [encoding/json], [sha256],
      the two signers, [rand.Read], [time.Now]) are fields of an
      environment record, except [base64.RawURLEncoding], [fmt.Sprintf "%x"],
      [strings.Split] and [time.Time.Add]/[Unix], which are written out. *)

From Stdlib Require Import ZArith NArith Lia Bool String Ascii List.
From Stdlib.Strings Require Import Byte.
From stdpp Require Import base list.
Import ListNotations.

Local Open Scope Z_scope.

(* ===================================================================== *)
(** * Bytes and strings *)
(* ===================================================================== *)

Module Bytes.

(** The bytes of a Go string, [[]byte(s)]. *)
Definition of_string (s : string) : list byte := list_byte_of_string s.

(** [for i := range buf { buf[i] = 0 }], as the loop runs: one store per
    index, from index [i] on, [n] times. *)
Fixpoint zero_from (i n : nat) (buf : list byte) : list byte :=
  match n with
  | O => buf
  | S n' => zero_from (S i) n' (<[i := x00]> buf)
  end.

Definition zero (buf : list byte) : list byte := zero_from 0 (length buf) buf.

(** Lower-case hexadecimal, [fmt.Sprintf("%x", buf)]. *)
Definition hex_digit (n : N) : ascii :=
  match n with
  | 0%N => "0" | 1%N => "1" | 2%N => "2" | 3%N => "3"
  | 4%N => "4" | 5%N => "5" | 6%N => "6" | 7%N => "7"
  | 8%N => "8" | 9%N => "9" | 10%N => "a" | 11%N => "b"
  | 12%N => "c" | 13%N => "d" | 14%N => "e" | _ => "f"
  end%char.

Fixpoint hex (buf : list byte) : string :=
  match buf with
  | [] => EmptyString
  | b :: rest =>
      let n := Byte.to_N b in
      String (hex_digit (N.shiftr n 4))
        (String (hex_digit (N.land n 15)) (hex rest))
  end.

End Bytes.

(* ===================================================================== *)
(** * encoding/base64: RawURLEncoding *)
(* ===================================================================== *)

Module Base64.

(** The URL-safe alphabet of RFC 4648, [encodeURL] in Go. *)
Definition encodeURL : string :=
  "ABCDEFGHIJKLMNOPQRSTUVWXYZabcdefghijklmnopqrstuvwxyz0123456789-_".

(** The character of a 6-bit value. *)
Definition enc (v : N) : ascii :=
  match String.get (N.to_nat (N.land v 63)) encodeURL with
  | Some c => c
  | None => "A"%char
  end.

(** [RawURLEncoding.EncodeToString]: three bytes give four characters; a
    remainder of one byte gives two characters and of two bytes three,
    with no padding character. *)
Fixpoint EncodeToString (src : list byte) : string :=
  match src with
  | [] => EmptyString
  | [a] =>
      let v := N.shiftl (Byte.to_N a) 16 in
      String (enc (N.shiftr v 18)) (String (enc (N.shiftr v 12)) EmptyString)
  | [a; b] =>
      let v := N.lor (N.shiftl (Byte.to_N a) 16) (N.shiftl (Byte.to_N b) 8) in
      String (enc (N.shiftr v 18))
        (String (enc (N.shiftr v 12))
           (String (enc (N.shiftr v 6)) EmptyString))
  | a :: b :: c :: rest =>
      let v := N.lor (N.lor (N.shiftl (Byte.to_N a) 16)
                            (N.shiftl (Byte.to_N b) 8)) (Byte.to_N c) in
      String (enc (N.shiftr v 18))
        (String (enc (N.shiftr v 12))
           (String (enc (N.shiftr v 6))
              (String (enc v) (EncodeToString rest))))
  end.

(** The 24 bits of a group of three bytes. *)
Definition group (a b c : byte) : N :=
  N.lor (N.lor (N.shiftl (Byte.to_N a) 16) (N.shiftl (Byte.to_N b) 8))
    (Byte.to_N c).

(** Membership in the alphabet, as a test on the character code. *)
Definition in_alphabet (c : ascii) : bool :=
  let n := N_of_ascii c in
  ((65 <=? n) && (n <=? 90) || (97 <=? n) && (n <=? 122)
   || (48 <=? n) && (n <=? 57) || (n =? 45) || (n =? 95))%N.

Fixpoint all_in_alphabet (s : string) : bool :=
  match s with
  | EmptyString => true
  | String c s' => in_alphabet c && all_in_alphabet s'
  end.

End Base64.

(* ===================================================================== *)
(** * strings.Split with the separator "." *)
(* ===================================================================== *)

Module Strings.

Definition dot : ascii := "."%char.

(** [strings.Split(s, ".")]: the pieces of [s] between the dots; one more
    piece than there are dots. *)
Fixpoint Split (s : string) : list string :=
  match s with
  | EmptyString => [EmptyString]
  | String c s' =>
      if Ascii.eqb c dot then EmptyString :: Split s'
      else match Split s' with
           | [] => [String c EmptyString]
           | p :: ps => String c p :: ps
           end
  end.

Fixpoint has_dot (s : string) : bool :=
  match s with
  | EmptyString => false
  | String c s' => Ascii.eqb c dot || has_dot s'
  end.

End Strings.

(* ===================================================================== *)
(** * time.Duration and time.Time *)
(* ===================================================================== *)

Module Time.

(** [time.Duration]: an [int64] count of nanoseconds. *)
Definition Duration := Z.

Definition Millisecond : Duration := 1000000.
Definition Second : Duration := 1000000000.
Definition Hour : Duration := 3600 * Second.

Definition max_int64 : Z := 2 ^ 63 - 1.

(** Two's-complement wrap-around of [int64] arithmetic. *)
Definition wrap64 (z : Z) : Z := (z + 2 ^ 63) mod 2 ^ 64 - 2 ^ 63.

(** A [time.Time] that carries no monotonic reading, which is what
    [time.Now().UTC()] returns: [ext] is the [int64] number of seconds
    since January 1, year 1, and [nsec] the nanoseconds within the
    second, in [0, 999999999]. *)
Record Time := { ext : Z; nsec : Z }.

(** Seconds from year 1 to 1970. *)
Definition unixToInternal : Z := 62135596800.
Definition internalToUnix : Z := - unixToInternal.

(** [addSec] of [Time], wall-clock branch: the sum saturates instead of
    wrapping. *)
Definition addSec (t : Time) (d : Z) : Time :=
  let sum := wrap64 (ext t + d) in
  if Bool.eqb (ext t <? sum) (0 <? d) then {| ext := sum; nsec := nsec t |}
  else if 0 <? d then {| ext := max_int64; nsec := nsec t |}
  else {| ext := - max_int64; nsec := nsec t |}.

(** [Time.Add]: Go's [/] and [%] on integers truncate toward zero. *)
Definition Add (t : Time) (d : Duration) : Time :=
  let dsec := Z.quot d 1000000000 in
  let ns := nsec t + Z.rem d 1000000000 in
  if 1000000000 <=? ns then
    addSec {| ext := ext t; nsec := ns - 1000000000 |} (dsec + 1)
  else if ns <? 0 then
    addSec {| ext := ext t; nsec := ns + 1000000000 |} (dsec - 1)
  else addSec {| ext := ext t; nsec := ns |} dsec.

(** [Time.Unix]: seconds since January 1, 1970 UTC. *)
Definition Unix (t : Time) : Z := wrap64 (ext t + internalToUnix).

(** A clock reading as the operating system can give it. *)
Definition valid (t : Time) : Prop :=
  0 <= ext t < 2 ^ 62 /\ 0 <= nsec t < 1000000000.

End Time.

(* ===================================================================== *)
(** * The heap: byte buffers and big integers *)
(* ===================================================================== *)

Module Heap.

(** An object of the heap: the backing array of a [[]byte], or the value
    of a [big.Int]. *)
Inductive cell :=
| CBytes (buf : list byte)
| CInt (z : Z).

(** A reference is the index of the object; the heap is the list of the
    objects allocated so far. *)
Abbreviation loc := nat (only parsing).
Abbreviation heap := (list cell) (only parsing).

(** Allocation never reuses a reference. *)
Definition alloc (h : heap) (c : cell) : loc * heap := (length h, h ++ [c]).

(** The bytes a slice refers to (a dangling or nil slice is empty). *)
Definition read_bytes (h : heap) (p : loc) : list byte :=
  match h !! p with
  | Some (CBytes buf) => buf
  | _ => []
  end.

(** The value of the [big.Int] a pointer refers to. *)
Definition read_int (h : heap) (p : loc) : Z :=
  match h !! p with
  | Some (CInt z) => z
  | _ => 0
  end.

(** [for i := range s { s[i] = 0 }] on the slice at [p]. *)
Definition zero_slice (h : heap) (p : loc) : heap :=
  match h !! p with
  | Some (CBytes buf) => <[p := CBytes (Bytes.zero buf)]> h
  | _ => h
  end.

End Heap.

(* ===================================================================== *)
(** * jwt.go *)
(* ===================================================================== *)

Module Jwt.
Import Heap.

Definition es256 : string := "ES256".
Definition rs256 : string := "RS256".

Record tokenHeader := { Alg : string; Typ : string }.

Record tokenPayload := {
  BodyHash : string;
  Exp : Z;
  Iat : Z;
  Nonce : string;
  Sub : string;
  Uri : string;
  Kid : string
}.

(** [Header] and [Payload] are pointers in Go; a token owns both and no
    one else holds them, so they are embedded by value and the one
    assignment through them, [t.Header.Alg = ...], is a record update. *)
Record token := {
  Header : tokenHeader;
  Payload : tokenPayload;
  shouldCleanKey : bool
}.

Definition set_Alg (t : token) (alg : string) : token :=
  {| Header := {| Alg := alg; Typ := Typ (Header t) |};
     Payload := Payload t;
     shouldCleanKey := shouldCleanKey t |}.

(** ** Private keys *)

(** The integers an [x509] parser extracts from a DER structure. *)
Record ec_numbers := { ecD : Z; ecX : Z; ecY : Z }.

Record rsa_numbers := {
  rsaN : Z;
  rsaE : Z;
  rsaD : Z;
  rsaPrimes : list Z;
  rsaDp : Z;
  rsaDq : Z;
  rsaQinv : Z
}.

(** What [x509.ParsePKCS8PrivateKey] can return: an RSA key, an ECDSA key,
    or a key of another kind (Ed25519, ECDH), which carries no [big.Int]. *)
Inductive parsed_key :=
| ParsedEC (k : ec_numbers)
| ParsedRSA (k : rsa_numbers)
| ParsedOther.

(** [*ecdsa.PrivateKey]: the fields are [*big.Int]. *)
Record ecdsa_PrivateKey := { ec_D : loc; ec_X : loc; ec_Y : loc }.

(** [*rsa.PrivateKey], with the public modulus and exponent, the primes
    and the precomputed CRT values. *)
Record rsa_PrivateKey := {
  rsa_N : loc;
  rsa_E : Z;
  rsa_D : loc;
  rsa_Primes : list loc;
  rsa_Dp : loc;
  rsa_Dq : loc;
  rsa_Qinv : loc
}.

(** The dynamic type of [privateKeyAny]. *)
Inductive PrivateKey :=
| KeyEC (key : ecdsa_PrivateKey)
| KeyRSA (key : rsa_PrivateKey)
| KeyOther.

(** [big.NewInt(z)] *)
Definition big_NewInt (h : heap) (z : Z) : loc * heap := alloc h (CInt z).

Fixpoint new_ints (h : heap) (zs : list Z) : list loc * heap :=
  match zs with
  | [] => ([], h)
  | z :: zs' =>
      let (p, h1) := big_NewInt h z in
      let (ps, h2) := new_ints h1 zs' in
      (p :: ps, h2)
  end.

(** The parser's result as an object: every integer gets its own cell. *)
Definition new_ec (h : heap) (k : ec_numbers) : ecdsa_PrivateKey * heap :=
  let (d, h1) := big_NewInt h (ecD k) in
  let (x, h2) := big_NewInt h1 (ecX k) in
  let (y, h3) := big_NewInt h2 (ecY k) in
  ({| ec_D := d; ec_X := x; ec_Y := y |}, h3).

Definition new_rsa (h : heap) (k : rsa_numbers) : rsa_PrivateKey * heap :=
  let (n, h1) := big_NewInt h (rsaN k) in
  let (d, h2) := big_NewInt h1 (rsaD k) in
  let (ps, h3) := new_ints h2 (rsaPrimes k) in
  let (dp, h4) := big_NewInt h3 (rsaDp k) in
  let (dq, h5) := big_NewInt h4 (rsaDq k) in
  let (qi, h6) := big_NewInt h5 (rsaQinv k) in
  ({| rsa_N := n; rsa_E := rsaE k; rsa_D := d; rsa_Primes := ps;
      rsa_Dp := dp; rsa_Dq := dq; rsa_Qinv := qi |}, h6).

Definition new_key (h : heap) (k : parsed_key) : PrivateKey * heap :=
  match k with
  | ParsedEC e => let (key, h') := new_ec h e in (KeyEC key, h')
  | ParsedRSA r => let (key, h') := new_rsa h r in (KeyRSA key, h')
  | ParsedOther => (KeyOther, h)
  end.

(** The integers a key object holds at the moment it is used. *)
Definition ec_values (h : heap) (key : ecdsa_PrivateKey) : ec_numbers :=
  {| ecD := read_int h (ec_D key);
     ecX := read_int h (ec_X key);
     ecY := read_int h (ec_Y key) |}.

Definition rsa_values (h : heap) (key : rsa_PrivateKey) : rsa_numbers :=
  {| rsaN := read_int h (rsa_N key);
     rsaE := rsa_E key;
     rsaD := read_int h (rsa_D key);
     rsaPrimes := map (read_int h) (rsa_Primes key);
     rsaDp := read_int h (rsa_Dp key);
     rsaDq := read_int h (rsa_Dq key);
     rsaQinv := read_int h (rsa_Qinv key) |}.

(** The integers a key object holds, as a parser result. *)
Definition key_values (h : heap) (k : PrivateKey) : parsed_key :=
  match k with
  | KeyEC key => ParsedEC (ec_values h key)
  | KeyRSA key => ParsedRSA (rsa_values h key)
  | KeyOther => ParsedOther
  end.

(** The references to every integer cell of a key object. *)
Definition key_cells (k : PrivateKey) : list loc :=
  match k with
  | KeyEC key => [ec_D key; ec_X key; ec_Y key]
  | KeyRSA key =>
      [rsa_N key; rsa_D key] ++ rsa_Primes key
        ++ [rsa_Dp key; rsa_Dq key; rsa_Qinv key]
  | KeyOther => []
  end.

(** ** The standard-library functions the code calls *)

Class GoLib := {
  (** [rand.Read] on a buffer of [n] bytes: the bytes, or an error. *)
  rand_Read : nat -> option (list byte);
  (** [time.Now().UTC()] *)
  time_Now : Time.Time;
  (** [sha256.Sum256] *)
  sha256_Sum256 : list byte -> list byte;
  (** [pem.Decode]: the bytes of the first PEM block, or [nil]. *)
  pem_Decode : list byte -> option (list byte);
  x509_ParseECPrivateKey : list byte -> option ec_numbers;
  x509_ParsePKCS1PrivateKey : list byte -> option rsa_numbers;
  x509_ParsePKCS8PrivateKey : list byte -> option parsed_key;
  (** [json.NewEncoder(&buf).Encode(v)]: the bytes written, or an error. *)
  json_Encode_payload : tokenPayload -> option (list byte);
  json_Encode_header : tokenHeader -> option (list byte);
  (** [ecdsa.SignASN1(rand.Reader, key, hash)] *)
  ecdsa_SignASN1 : ec_numbers -> list byte -> option (list byte);
  (** [rsa.SignPKCS1v15(rand.Reader, key, crypto.SHA256, hash)] *)
  rsa_SignPKCS1v15 : rsa_numbers -> list byte -> option (list byte)
}.

(** ** Errors *)

Inductive error :=
| ErrRandom
| ErrNotPEM
| ErrDeduceKeyType
| ErrEncode
| ErrSignEC
| ErrSignRSA
| ErrCastKeyType.

(** The text of [fmt.Errorf], up to the wrapped cause. *)
Definition Error (e : error) : string :=
  match e with
  | ErrRandom => "wallet: newToken: failed to read random bytes. err="
  | ErrNotPEM => "wallet: signAndFormat: private key must be in PEM format."
  | ErrDeduceKeyType =>
      "wallet: signAndFormat: unable to deduce private key type. Valid key would either be EC or RSA."
  | ErrEncode => "wallet: signAndFormat: "
  | ErrSignEC => "wallet: signAndFormat: failed to sign with EC key. err="
  | ErrSignRSA => "wallet: signAndFormat: failed to sign with RSA key. err="
  | ErrCastKeyType =>
      "wallet: signAndFormat: unable to cast private key type. Valid key would either be *[rsa.PrivateKey] or *[ecdsa.PrivateKey]."
  end.

(** The errors about the format of the key: not PEM, or not a structure
    of an EC or RSA key. *)
Definition key_format_error (e : error) : bool :=
  match e with
  | ErrNotPEM | ErrDeduceKeyType | ErrCastKeyType => true
  | _ => false
  end.

(** A Go result pair [(v, err)]. *)
Inductive result (A : Type) :=
| Ok (v : A)
| Err (e : error).
Arguments Ok {A} v.
Arguments Err {A} e.

Definition is_ok {A} (r : result A) : bool :=
  match r with Ok _ => true | Err _ => false end.

(** What [signAndFormat] leaves behind: the pair it returns, the token it
    was called on, the heap, and the two locals a property of erasure
    speaks about. *)
Record outcome := {
  ret : result string;
  tok : token;
  mem : heap;
  (** [privateKeyBlock.Bytes], when [pem.Decode] found a block *)
  block : option loc;
  (** the key object as the parser returned it *)
  parsed : option PrivateKey;
  (** the key object when the function returns *)
  key : option PrivateKey
}.

Definition with_mem (o : outcome) (h : heap) : outcome :=
  {| ret := ret o; tok := tok o; mem := h; block := block o;
     parsed := parsed o; key := key o |}.

(** The fields the code assigns [big.NewInt(0)] to after signing. *)
Definition reset_cells (k : PrivateKey) : list loc :=
  match k with
  | KeyEC key => [ec_D key; ec_X key; ec_Y key]
  | KeyRSA key => [rsa_D key; rsa_N key]
  | KeyOther => []
  end.

(** Every reference in [cells] leads to an integer of [h] that holds
    zero.  A reference that leads to no integer is not a zero. *)
Definition all_zero (h : heap) (cells : list loc) : Prop :=
  Forall (fun l => h !! l = Some (CInt 0)) cells.

Definition is_zero_int (h : heap) (l : loc) : bool :=
  match h !! l with
  | Some (CInt z) => z =? 0
  | _ => false
  end.

Definition all_zerob (h : heap) (cells : list loc) : bool :=
  forallb (is_zero_int h) cells.

(** Two readings of "the numeric components of the key are overwritten
    with zero": the integers the parser created are zero where they stand
    (in place); or, weaker, every integer the key object refers to when
    the function returns is zero. *)
Definition erased_in_place (o : outcome) : Prop :=
  forall k, parsed o = Some k -> all_zero (mem o) (key_cells k).

Definition key_reads_zero (o : outcome) : Prop :=
  forall k, key o = Some k -> all_zero (mem o) (key_cells k).

Definition erased_in_placeb (o : outcome) : bool :=
  match parsed o with
  | Some k => all_zerob (mem o) (key_cells k)
  | None => true
  end.

Definition key_reads_zerob (o : outcome) : bool :=
  match key o with
  | Some k => all_zerob (mem o) (key_cells k)
  | None => true
  end.

Section Code.
Context `{GoLib}.

Definition newToken (keyID uri : string) (body : list byte)
    (ttl : Time.Duration) (shouldCleanKey : bool) : result token :=
  match rand_Read 20 with
  | None => Err ErrRandom
  | Some nonceBuffer =>
      let iat := time_Now in
      let bodyHash := sha256_Sum256 body in
      Ok {| shouldCleanKey := shouldCleanKey;
            Header := {| Alg := EmptyString; Typ := "JWT" |};
            Payload := {| Kid := keyID;
                          Sub := "wallet";
                          Iat := Time.Unix iat;
                          Exp := Time.Unix (Time.Add iat ttl);
                          Nonce := Bytes.hex nonceBuffer;
                          BodyHash := Bytes.hex bodyHash;
                          Uri := uri |} |}
  end.

(** The three parsers, tried in the order of the source: EC, then RSA
    PKCS#1, then PKCS#8. *)
Definition parse_private_key (der : list byte) : option parsed_key :=
  match x509_ParseECPrivateKey der with
  | Some k => Some (ParsedEC k)
  | None =>
      match x509_ParsePKCS1PrivateKey der with
      | Some k => Some (ParsedRSA k)
      | None => x509_ParsePKCS8PrivateKey der
      end
  end.

(** The digest that is signed: SHA-256 of the signing input. *)
Definition digest (signingInput : string) : list byte :=
  sha256_Sum256 (Bytes.of_string signingInput).

(** "Signed as ES256": the header names ES256 and the signature is the
    ECDSA signature of the digest under the numbers [e]. *)
Definition signed_EC (e : ec_numbers) (alg signingInput : string)
    (sig : list byte) : Prop :=
  alg = es256 /\ ecdsa_SignASN1 e (digest signingInput) = Some sig.

(** "Signed as RS256": the header names RS256 and the signature is the
    PKCS#1 v1.5 signature of the digest under the numbers [r]. *)
Definition signed_RSA (r : rsa_numbers) (alg signingInput : string)
    (sig : list byte) : Prop :=
  alg = rs256 /\ rsa_SignPKCS1v15 r (digest signingInput) = Some sig.

(** The type switch on [privateKeyAny]: the signing string and the
    signature, or the error of an early return; the token, the key
    object and the heap are those at the end of the case. *)
Definition sign_switch (t : token) (encodedPayload : string)
    (k : PrivateKey) (h : heap)
    : result (string * list byte) * token * PrivateKey * heap :=
  match k with
  | KeyEC key =>
      let t := set_Alg t es256 in
      match json_Encode_header (Header t) with
      | None => (Err ErrEncode, t, k, h)
      | Some js =>
          let encodedHeader := Base64.EncodeToString js in
          let signingString :=
            String.append encodedHeader
              (String.append "." encodedPayload) in
          let hashed := sha256_Sum256 (Bytes.of_string signingString) in
          match ecdsa_SignASN1 (ec_values h key) hashed with
          | None => (Err ErrSignEC, t, k, h)
          | Some signatureB =>
              let (d, h1) := big_NewInt h 0 in
              let (x, h2) := big_NewInt h1 0 in
              let (y, h3) := big_NewInt h2 0 in
              (Ok (signingString, signatureB), t,
               KeyEC {| ec_D := d; ec_X := x; ec_Y := y |}, h3)
          end
      end
  | KeyRSA key =>
      let t := set_Alg t rs256 in
      match json_Encode_header (Header t) with
      | None => (Err ErrEncode, t, k, h)
      | Some js =>
          let encodedHeader := Base64.EncodeToString js in
          let signingString :=
            String.append encodedHeader
              (String.append "." encodedPayload) in
          let hashed := sha256_Sum256 (Bytes.of_string signingString) in
          match rsa_SignPKCS1v15 (rsa_values h key) hashed with
          | None => (Err ErrSignRSA, t, k, h)
          | Some signatureB =>
              let (d, h1) := big_NewInt h 0 in
              let (n, h2) := big_NewInt h1 0 in
              (Ok (signingString, signatureB), t,
               KeyRSA {| rsa_N := n; rsa_E := rsa_E key; rsa_D := d;
                         rsa_Primes := rsa_Primes key;
                         rsa_Dp := rsa_Dp key; rsa_Dq := rsa_Dq key;
                         rsa_Qinv := rsa_Qinv key |}, h2)
          end
      end
  | KeyOther => (Err ErrCastKeyType, t, k, h)
  end.

(** The body from the parsing of the key on, that is after both
    [defer] statements. *)
Definition sign_block (t : token) (bl : loc) (h : heap) : outcome :=
  match parse_private_key (read_bytes h bl) with
  | None =>
      {| ret := Err ErrDeduceKeyType; tok := t; mem := h;
         block := Some bl; parsed := None; key := None |}
  | Some numbers =>
      let (k, h1) := new_key h numbers in
      match json_Encode_payload (Payload t) with
      | None =>
          {| ret := Err ErrEncode; tok := t; mem := h1;
             block := Some bl; parsed := Some k; key := Some k |}
      | Some js =>
          let encodedPayload := Base64.EncodeToString js in
          match sign_switch t encodedPayload k h1 with
          | (Err e, t', k', h2) =>
              {| ret := Err e; tok := t'; mem := h2;
                 block := Some bl; parsed := Some k; key := Some k' |}
          | (Ok (signingString, signatureB), t', k', h2) =>
              {| ret := Ok (String.append signingString
                              (String.append "."
                                 (Base64.EncodeToString signatureB)));
                 tok := t'; mem := h2;
                 block := Some bl; parsed := Some k; key := Some k' |}
          end
      end
  end.

(** The body after the first [defer]: decode the PEM block, register
    the second [defer] (zero [privateKeyBlock.Bytes]) and go on. *)
Definition sign_pem (t : token) (privateKeyPEM : loc) (h : heap) : outcome :=
  match pem_Decode (read_bytes h privateKeyPEM) with
  | None =>
      {| ret := Err ErrNotPEM; tok := t; mem := h;
         block := None; parsed := None; key := None |}
  | Some der =>
      let (bl, h1) := alloc h (CBytes der) in
      let o := sign_block t bl h1 in
      with_mem o (zero_slice (mem o) bl)
  end.

(** [func (t *token) signAndFormat(privateKeyPEM []byte) (string, error)]:
    the first [defer] (zero [privateKeyPEM] when [t.shouldCleanKey])
    runs last. *)
Definition signAndFormat (t : token) (privateKeyPEM : loc) (h : heap)
    : outcome :=
  let o := sign_pem t privateKeyPEM h in
  if shouldCleanKey t then with_mem o (zero_slice (mem o) privateKeyPEM)
  else o.

End Code.

End Jwt.

(* ===================================================================== *)
(** * wallet/wallet.go: the client *)
(* ===================================================================== *)

Module Wallet.
Import Heap.

(** [http.Client]: the field the constructor reads and writes, and the
    transport as an opaque handle. *)
Record http_Client := { Timeout : Time.Duration; Transport : nat }.

(** [func() (keyID string, privateKeyPEM []byte, err error)]; the
    argument is the number of the invocation, since a Go closure may
    answer differently each time. *)
Definition CredentialsLoader := nat -> string * loc * option string.

Record Options := {
  CredentialsLoaderFunc : option CredentialsLoader;
  HTTPClient : option http_Client;
  MaxReadRetry : Z;
  RetryInterval : Time.Duration;
  Debug : bool
}.

Record credentials := { keyID : string; privateKeyPEM : loc }.

(** [Client]: [options] is the caller's [Options] object itself (the
    pointer is stored, not a copy); [creds] is the field [credentials],
    [None] for [nil]. *)
Record Client := { options : Options; creds : option credentials }.

Definition defaultOptions : Options :=
  {| CredentialsLoaderFunc := None;
     HTTPClient := Some {| Timeout := 10 * Time.Second; Transport := 0 |};
     MaxReadRetry := 5;
     RetryInterval := 50 * Time.Millisecond;
     Debug := false |}.

Definition set_HTTPClient (o : Options) (hc : option http_Client) : Options :=
  {| CredentialsLoaderFunc := CredentialsLoaderFunc o;
     HTTPClient := hc;
     MaxReadRetry := MaxReadRetry o;
     RetryInterval := RetryInterval o;
     Debug := Debug o |}.

Definition set_MaxReadRetry (o : Options) (n : Z) : Options :=
  {| CredentialsLoaderFunc := CredentialsLoaderFunc o;
     HTTPClient := HTTPClient o;
     MaxReadRetry := n;
     RetryInterval := RetryInterval o;
     Debug := Debug o |}.

Definition set_RetryInterval (o : Options) (d : Time.Duration) : Options :=
  {| CredentialsLoaderFunc := CredentialsLoaderFunc o;
     HTTPClient := HTTPClient o;
     MaxReadRetry := MaxReadRetry o;
     RetryInterval := d;
     Debug := Debug o |}.

(** [func New(opts ...*Options) *Client].  An element of [opts] is a
    pointer, [None] for [nil]; the result is [None] when the call panics
    (the first pointer is [nil] and is dereferenced). *)
Definition New (opts : list (option Options)) : option Client :=
  match opts with
  | [] => Some {| options := defaultOptions; creds := None |}
  | None :: _ => None
  | Some o :: _ =>
      (* HTTP options *)
      let o :=
        match HTTPClient o with
        | None => set_HTTPClient o (HTTPClient defaultOptions)
        | Some _ => o
        end in
      (* force timeout in HTTP client *)
      let o :=
        match HTTPClient o with
        | Some hc =>
            if Timeout hc <=? 0
            then set_HTTPClient o
                   (Some {| Timeout := 10 * Time.Second;
                            Transport := Transport hc |})
            else o
        | None => o
        end in
      (* retry options *)
      let o :=
        if MaxReadRetry o <=? 0
        then set_MaxReadRetry o (MaxReadRetry defaultOptions) else o in
      let o :=
        if RetryInterval o <=? 0
        then set_RetryInterval o (RetryInterval defaultOptions) else o in
      Some {| options := o; creds := None |}
  end.

(** [func (c *Client) SetCredentials(keyID string, privateKeyPEM []byte)]:
    the client after the call and the lines written to the log. *)
Definition SetCredentials (c : Client) (keyID : string) (privateKeyPEM : loc)
    : Client * list string :=
  match CredentialsLoaderFunc (options c) with
  | Some _ =>
      (c, if Debug (options c)
          then ["INFO: ignoring SetCredentials call as CredentialsLoaderFunc was set to the client."%string]
          else [])
  | None =>
      ({| options := options c;
          creds := Some {| keyID := keyID; privateKeyPEM := privateKeyPEM |} |},
       [])
  end.

End Wallet.

(* ===================================================================== *)
(** * The request dispatcher *)
(* ===================================================================== *)

(** The file that defines [query] and [command] is not in the tree: only
    their callers ([ListClientAccounts]) and their tests are.  The
    definitions of this module follow sections 4.3, 4.4 and 7 of the
    specification. *)
Module Dispatcher.
Import Heap Wallet.

(** Modelled from the spec: what one HTTP attempt of the missing [query]
    or [command] comes back with (section 4.4): a transport-level failure,
    or a response with its status code and the value of its [Retry-After]
    header in seconds. *)
Inductive Response :=
| TransportFailure
| Status (code : Z) (retryAfter : Z).

(** Modelled from the spec: the errors of the missing [query] and
    [command], after the taxonomy of section 7. *)
Inductive call_error :=
| MissingCredentialsError
| LoaderError (msg : string)
| TokenError (e : Jwt.error)
| TransportError
| ServerError (code : Z)
| RateLimitError (retryAfter : Z)
| ClientError (code : Z).

(** Modelled from the spec: the text by which the error of the missing
    resolver identifies missing credentials (section 4.3). *)
Definition missing_credentials_message : string := "credentials are not set".

(** Modelled from the spec: what the missing resolver yields (section
    4.3): the key identifier and key bytes of one call, and whether the
    bytes are transient (to be erased after signing). *)
Record resolved := {
  r_keyID : string;
  r_key : loc;
  r_transient : bool
}.

(** Modelled from the spec: the credential resolver of section 4.3, whose
    source is missing.  The loader has priority; the stored credentials
    are used only when no loader is configured. *)
Definition resolve (c : Client) (invocation : nat) : resolved + call_error :=
  match CredentialsLoaderFunc (options c) with
  | Some load =>
      match load invocation with
      | (k, p, None) => inl {| r_keyID := k; r_key := p; r_transient := true |}
      | (_, _, Some msg) => inr (LoaderError msg)
      end
  | None =>
      match creds c with
      | Some cr =>
          inl {| r_keyID := keyID cr; r_key := privateKeyPEM cr;
                 r_transient := false |}
      | None => inr MissingCredentialsError
      end
  end.

(** Modelled from the spec: what the caller and the server can observe of
    a call of the missing [query] or [command]: each HTTP request with the
    number of the token it carries and the credentials the token was
    signed with, and each wait. *)
Inductive event :=
| Send (tokenNo : nat) (cr : resolved)
| Wait (d : Time.Duration).

(** Modelled from the spec: how a call of the missing [query] or
    [command] ends (section 4.4). *)
Inductive call_result :=
| Succeeded
| Failed (e : call_error)
(** the responses given do not reach the end of the call *)
| Pending
(** a status the specification says nothing about (1xx, 3xx) *)
| Unspecified (code : Z).

(** Modelled from the spec: the two choices that section 9 leaves open for
    the missing [query] and [command]. *)
Record Policy := {
  (** a retry after 429 counts as an attempt against [maxReadRetry] *)
  rate_limit_counts : bool;
  (** a command is retried after 429 *)
  command_retries_rate_limit : bool
}.

(** Modelled from the spec: the classes of status codes that section 4.4
    tells apart. *)
Inductive status_class :=
| Is2xx
| Is429
| Is5xx
| Is4xx
| IsOther.

Definition classify (code : Z) : status_class :=
  if (200 <=? code) && (code <? 300) then Is2xx
  else if code =? 429 then Is429
  else if (500 <=? code) && (code <? 600) then Is5xx
  else if (400 <=? code) && (code <? 500) then Is4xx
  else IsOther.

Section Calls.
(** The token factory and signer, seen from the dispatcher: the error,
    if any, of building and signing token number [n] with the resolved
    credentials. *)
Variable mint : nat -> resolved -> option Jwt.error.
Variable policy : Policy.
Variable c : Client.

(** Modelled from the spec: the query state machine of section 4.4, whose
    source is missing.  [responses] are the answers of the transport
    to the successive requests, [attempts] the attempts so far, this
    one included, and [n] the number of this token. *)
Fixpoint query_from (responses : list Response) (attempts n : nat)
    : list event * call_result :=
  match resolve c n with
  | inr e => ([], Failed e)
  | inl cr =>
      match mint n cr with
      | Some e => ([], Failed (TokenError e))
      | None =>
          match responses with
          | [] => ([], Pending)
          | r :: rest =>
              let retry (d : Time.Duration) (attempts' : nat) :=
                let (tr, res) := query_from rest attempts' (S n) in
                (Send n cr :: Wait d :: tr, res) in
              let retry_in_budget (e : call_error) :=
                if Z.of_nat attempts <=? MaxReadRetry (options c)
                then retry (RetryInterval (options c)) (S attempts)
                else ([Send n cr], Failed e) in
              match r with
              | TransportFailure => retry_in_budget TransportError
              | Status code retryAfter =>
                  match classify code with
                  | Is2xx => ([Send n cr], Succeeded)
                  | Is5xx => retry_in_budget (ServerError code)
                  | Is429 =>
                      retry (retryAfter * Time.Second)
                        (if rate_limit_counts policy
                         then S attempts else attempts)
                  | Is4xx => ([Send n cr], Failed (ClientError code))
                  | IsOther => ([Send n cr], Unspecified code)
                  end
              end
          end
      end
  end.

Definition query (responses : list Response) : list event * call_result :=
  query_from responses 1 1.

(** Modelled from the spec: the command path of section 4.4, whose
    source is missing: the same token machinery, one attempt, no retry
    on a server error. *)
Fixpoint command_from (responses : list Response) (n : nat)
    : list event * call_result :=
  match resolve c n with
  | inr e => ([], Failed e)
  | inl cr =>
      match mint n cr with
      | Some e => ([], Failed (TokenError e))
      | None =>
          match responses with
          | [] => ([], Pending)
          | TransportFailure :: _ => ([Send n cr], Failed TransportError)
          | Status code retryAfter :: rest =>
              match classify code with
              | Is2xx => ([Send n cr], Succeeded)
              | Is5xx => ([Send n cr], Failed (ServerError code))
              | Is429 =>
                  if command_retries_rate_limit policy then
                    let (tr, res) := command_from rest (S n) in
                    (Send n cr :: Wait (retryAfter * Time.Second) :: tr, res)
                  else ([Send n cr], Failed (RateLimitError retryAfter))
              | Is4xx => ([Send n cr], Failed (ClientError code))
              | IsOther => ([Send n cr], Unspecified code)
              end
          end
      end
  end.

Definition command (responses : list Response) : list event * call_result :=
  command_from responses 1.

End Calls.

(** ** Observations on a trace *)

Definition is_send (e : event) : bool :=
  match e with Send _ _ => true | Wait _ => false end.

(** The number of HTTP attempts. *)
Definition attempts_of (tr : list event) : nat :=
  length (filter (fun e => is_send e = true) tr).


(** The key identifiers sent, in order. *)
Fixpoint keyIDs_of (tr : list event) : list string :=
  match tr with
  | [] => []
  | Send _ cr :: tr' => r_keyID cr :: keyIDs_of tr'
  | Wait _ :: tr' => keyIDs_of tr'
  end.

(** The waits, in order. *)
Fixpoint waits_of (tr : list event) : list Time.Duration :=
  match tr with
  | [] => []
  | Send _ _ :: tr' => waits_of tr'
  | Wait d :: tr' => d :: waits_of tr'
  end.

(** The time the call spends waiting. *)
Definition waited (tr : list event) : Time.Duration :=
  fold_right Z.add 0 (waits_of tr).



(** The credentials resolve and a token is built and signed at every
    attempt. *)
Definition always_signs (mint : nat -> resolved -> option Jwt.error)
    (c : Client) : Prop :=
  forall n, exists cr, resolve c n = inl cr /\ mint n cr = None.

End Dispatcher.

(* ===================================================================== *)
(** * A small library instance, for running the code on concrete inputs *)
(* ===================================================================== *)

Module Sample.
Import Heap Jwt.

Definition quote : ascii := ascii_of_nat 34.

Definition quoted (s : string) : string :=
  String quote (String.append s (String quote EmptyString)).

Definition newline : string := String (ascii_of_nat 10) EmptyString.

Fixpoint concat_strings (l : list string) : string :=
  match l with
  | [] => EmptyString
  | s :: l' => String.append s (concat_strings l')
  end.

Fixpoint decimal_digits (fuel : nat) (n : N) (acc : string) : string :=
  match fuel with
  | O => acc
  | S fuel' =>
      let acc' := String (ascii_of_N (48 + n mod 10)) acc in
      if (n <? 10)%N then acc' else decimal_digits fuel' (n / 10)%N acc'
  end.

Definition decimal (z : Z) : string :=
  let digits := decimal_digits 20 (Z.abs_N z) EmptyString in
  if z <? 0 then String "-" digits else digits.

(** The JSON text of a header and of a payload whose strings need no
    escaping, followed by the newline of [Encoder.Encode]. *)
Definition json_header (hd : tokenHeader) : option (list byte) :=
  Some (Bytes.of_string (concat_strings
    ["{"; quoted "alg"; ":"; quoted (Alg hd); ",";
     quoted "typ"; ":"; quoted (Typ hd); "}"; newline]%string)).

Definition json_payload (p : tokenPayload) : option (list byte) :=
  Some (Bytes.of_string (concat_strings
    ["{"; quoted "bodyHash"; ":"; quoted (BodyHash p); ",";
     quoted "exp"; ":"; decimal (Exp p); ",";
     quoted "iat"; ":"; decimal (Iat p); ",";
     quoted "nonce"; ":"; quoted (Nonce p); ",";
     quoted "sub"; ":"; quoted (Sub p); ",";
     quoted "uri"; ":"; quoted (Uri p); ",";
     quoted "kid"; ":"; quoted (Kid p); "}"; newline]%string)).

(** A PEM block is taken to be a dash followed by the block's bytes. *)
Definition decode_pem (buf : list byte) : option (list byte) :=
  match buf with
  | "-"%byte :: der => Some der
  | _ => None
  end.

Definition an_ec_key : ec_numbers := {| ecD := 7; ecX := 3; ecY := 5 |}.

(** The textbook RSA key with primes 61 and 53. *)
Definition an_rsa_key : rsa_numbers :=
  {| rsaN := 3233; rsaE := 17; rsaD := 413; rsaPrimes := [61; 53];
     rsaDp := 53; rsaDq := 49; rsaQinv := 38 |}.

(** An RSA key whose modulus is too short for a SHA-256 digest. *)
Definition a_short_rsa_key : rsa_numbers :=
  {| rsaN := 15; rsaE := 3; rsaD := 3; rsaPrimes := [3; 5];
     rsaDp := 1; rsaDq := 3; rsaQinv := 2 |}.

(** A structure is recognised by its first byte. *)
Definition parse_ec (der : list byte) : option ec_numbers :=
  match der with
  | "E"%byte :: _ => Some an_ec_key
  | _ => None
  end.

Definition parse_pkcs1 (der : list byte) : option rsa_numbers :=
  match der with
  | "R"%byte :: _ => Some an_rsa_key
  | "r"%byte :: _ => Some a_short_rsa_key
  | _ => None
  end.

Definition parse_pkcs8 (der : list byte) : option parsed_key :=
  match der with
  | "8"%byte :: "E"%byte :: _ => Some (ParsedEC an_ec_key)
  | "8"%byte :: "R"%byte :: _ => Some (ParsedRSA an_rsa_key)
  | "8"%byte :: _ => Some ParsedOther
  | _ => None
  end.

(** A one-byte checksum in the place of the digest. *)
Definition checksum (buf : list byte) : list byte :=
  match Byte.of_N (fold_right (fun b acc => (Byte.to_N b + acc) mod 256)%N 0%N buf) with
  | Some b => [b]
  | None => [x00]
  end.

Definition sign_ec (k : ec_numbers) (hashed : list byte) : option (list byte) :=
  Some ("0"%byte :: hashed ++ ["!"%byte]).

(** Signing fails when the modulus is shorter than the digest needs. *)
Definition sign_rsa (k : rsa_numbers) (hashed : list byte) : option (list byte) :=
  if rsaN k <? 256 then None else Some (hashed ++ hashed).

(** Thursday, 1 January 2026, 00:00:00.75 UTC *)
Definition a_time : Time.Time :=
  {| Time.ext := Time.unixToInternal + 1767225600; Time.nsec := 750000000 |}.

#[export] Instance lib : GoLib := {|
  rand_Read := fun n => Some (replicate n "*"%byte);
  time_Now := a_time;
  sha256_Sum256 := checksum;
  pem_Decode := decode_pem;
  x509_ParseECPrivateKey := parse_ec;
  x509_ParsePKCS1PrivateKey := parse_pkcs1;
  x509_ParsePKCS8PrivateKey := parse_pkcs8;
  json_Encode_payload := json_payload;
  json_Encode_header := json_header;
  ecdsa_SignASN1 := sign_ec;
  rsa_SignPKCS1v15 := sign_rsa
|}.

(** A heap that holds four key buffers: an EC key, an RSA key, an RSA key
    too short to sign with, and bytes that are no PEM block. *)
Definition ec_pem : loc := 0%nat.
Definition rsa_pem : loc := 1%nat.
Definition short_rsa_pem : loc := 2%nat.
Definition not_pem : loc := 3%nat.

Definition a_heap : heap :=
  [CBytes (Bytes.of_string "-EC KEY");
   CBytes (Bytes.of_string "-RSA KEY");
   CBytes (Bytes.of_string "-rsa key");
   CBytes (Bytes.of_string "NOTABASE64")].

(** The token of the signing tests: [newToken("test-key-id", "/test",
    []byte("payload"), time.Hour, clean)]. *)
Definition a_token (clean : bool) : token :=
  match newToken "test-key-id" "/test" (Bytes.of_string "payload")
          Time.Hour clean with
  | Ok t => t
  | Err _ =>
      {| Header := {| Alg := EmptyString; Typ := EmptyString |};
         Payload := {| BodyHash := EmptyString; Exp := 0; Iat := 0;
                       Nonce := EmptyString; Sub := EmptyString;
                       Uri := EmptyString; Kid := EmptyString |};
         shouldCleanKey := clean |}
  end.

(** Four calls: with an RSA key from a loader, with a stored EC key, with
    a stored RSA key that is too short to sign with, and with bytes that
    are no PEM block. *)
Definition rsa_run : outcome := signAndFormat (a_token true) rsa_pem a_heap.
Definition ec_run : outcome := signAndFormat (a_token false) ec_pem a_heap.
Definition short_rsa_run : outcome :=
  signAndFormat (a_token false) short_rsa_pem a_heap.
Definition not_pem_run : outcome := signAndFormat (a_token true) not_pem a_heap.

(** The text the call with the EC key returns. *)
Definition ec_token_text : string :=
  match ret ec_run with
  | Ok s => s
  | Err _ => EmptyString
  end.

(** The clients of the tests: [New(&Options{...})] followed by
    [SetCredentials("key-1", keyPEM)]. *)
Definition new_client (o : Wallet.Options) : Wallet.Client :=
  match Wallet.New [Some o] with
  | Some c => c
  | None => {| Wallet.options := o; Wallet.creds := None |}
  end.

Definition test_client (o : Wallet.Options) : Wallet.Client :=
  fst (Wallet.SetCredentials (new_client o) "key-1" rsa_pem).

Definition no_options : Wallet.Options :=
  {| Wallet.CredentialsLoaderFunc := None;
     Wallet.HTTPClient := Some {| Wallet.Timeout := 0; Wallet.Transport := 1 |};
     Wallet.MaxReadRetry := 0;
     Wallet.RetryInterval := 0;
     Wallet.Debug := false |}.

(** [MaxReadRetry: 5, RetryInterval: 1 * time.Millisecond] *)
Definition retry_options : Wallet.Options :=
  {| Wallet.CredentialsLoaderFunc := None;
     Wallet.HTTPClient := Some {| Wallet.Timeout := 0; Wallet.Transport := 1 |};
     Wallet.MaxReadRetry := 5;
     Wallet.RetryInterval := 1 * Time.Millisecond;
     Wallet.Debug := false |}.

(** A budget of one retry. *)
Definition one_retry_options : Wallet.Options :=
  {| Wallet.CredentialsLoaderFunc := None;
     Wallet.HTTPClient := None;
     Wallet.MaxReadRetry := 1;
     Wallet.RetryInterval := 1 * Time.Millisecond;
     Wallet.Debug := false |}.

(** A loader that returns the EC key. *)
Definition ec_loader : Wallet.CredentialsLoader :=
  fun _ => ("ec-key-id"%string, ec_pem, None).

Definition loader_options : Wallet.Options :=
  {| Wallet.CredentialsLoaderFunc := Some ec_loader;
     Wallet.HTTPClient := Some {| Wallet.Timeout := 0; Wallet.Transport := 1 |};
     Wallet.MaxReadRetry := 0;
     Wallet.RetryInterval := 0;
     Wallet.Debug := true |}.

(** A token factory and signer that never fail. *)
Definition signs : nat -> Dispatcher.resolved -> option Jwt.error :=
  fun _ _ => None.

Definition counting : Dispatcher.Policy :=
  {| Dispatcher.rate_limit_counts := true;
     Dispatcher.command_retries_rate_limit := true |}.

Definition not_counting : Dispatcher.Policy :=
  {| Dispatcher.rate_limit_counts := false;
     Dispatcher.command_retries_rate_limit := false |}.

End Sample.

(* ===================================================================== *)
(** * Decoders, for round trips *)
(* ===================================================================== *)

(** The readers of what [newToken] and [signAndFormat] write: a reader of
    lower-case hexadecimal and [base64.RawURLEncoding.DecodeString]. *)
Module Codec.

(** The value of a lower-case hexadecimal digit. *)
Definition hex_value (c : ascii) : option N :=
  let n := N_of_ascii c in
  (if (48 <=? n) && (n <=? 57) then Some (n - 48)
   else if (97 <=? n) && (n <=? 102) then Some (n - 87)
   else None)%N.

Definition is_hex_digit (c : ascii) : bool :=
  match hex_value c with
  | Some _ => true
  | None => false
  end.

Fixpoint all_hex (s : string) : bool :=
  match s with
  | EmptyString => true
  | String c s' => is_hex_digit c && all_hex s'
  end.

(** Two digits give one byte; an odd number of digits or a character that
    is no digit is an error. *)
Fixpoint unhex (s : string) : option (list byte) :=
  match s with
  | EmptyString => Some []
  | String _ EmptyString => None
  | String hi (String lo rest) =>
      match hex_value hi, hex_value lo, unhex rest with
      | Some h, Some l, Some bs =>
          match Byte.of_N (h * 16 + l) with
          | Some b => Some (b :: bs)
          | None => None
          end
      | _, _, _ => None
      end
  end.

(** The 6-bit value of a character of the URL alphabet. *)
Definition dec (c : ascii) : option N :=
  let n := N_of_ascii c in
  (if (65 <=? n) && (n <=? 90) then Some (n - 65)
   else if (97 <=? n) && (n <=? 122) then Some (n - 71)
   else if (48 <=? n) && (n <=? 57) then Some (n + 4)
   else if n =? 45 then Some 62
   else if n =? 95 then Some 63
   else None)%N.

(** The low eight bits as a byte. *)
Definition byte_of (n : N) : byte :=
  match Byte.of_N (N.land n 255) with
  | Some b => b
  | None => x00
  end.

(** The 24 bits of a group of four characters. *)
Definition quad (s1 s2 s3 s4 : N) : N :=
  N.lor (N.lor (N.lor (N.shiftl s1 18) (N.shiftl s2 12)) (N.shiftl s3 6)) s4.

(** [RawURLEncoding.DecodeString]: four characters give three bytes; a
    last group of two characters gives one byte and of three characters
    two; a last group of one character, or a character outside the
    alphabet, is an error. *)
Fixpoint DecodeString (s : string) : option (list byte) :=
  match s with
  | EmptyString => Some []
  | String _ EmptyString => None
  | String c1 (String c2 EmptyString) =>
      match dec c1, dec c2 with
      | Some s1, Some s2 =>
          Some [byte_of (N.shiftr (quad s1 s2 0 0) 16)]
      | _, _ => None
      end
  | String c1 (String c2 (String c3 EmptyString)) =>
      match dec c1, dec c2, dec c3 with
      | Some s1, Some s2, Some s3 =>
          Some [byte_of (N.shiftr (quad s1 s2 s3 0) 16);
                byte_of (N.shiftr (quad s1 s2 s3 0) 8)]
      | _, _, _ => None
      end
  | String c1 (String c2 (String c3 (String c4 rest))) =>
      match dec c1, dec c2, dec c3, dec c4, DecodeString rest with
      | Some s1, Some s2, Some s3, Some s4, Some bs =>
          Some (byte_of (N.shiftr (quad s1 s2 s3 s4) 16)
                :: byte_of (N.shiftr (quad s1 s2 s3 s4) 8)
                :: byte_of (quad s1 s2 s3 s4) :: bs)
      | _, _, _, _, _ => None
      end
  end.

End Codec.

(* ===================================================================== *)
(** * Sequences of calls on a client *)
(* ===================================================================== *)

Module Calls.
Import Heap Wallet.

(** [c.SetCredentials(k1, p1); c.SetCredentials(k2, p2); ...] *)
Fixpoint SetCredentials_all (c : Client) (calls : list (string * loc))
    : Client :=
  match calls with
  | [] => c
  | (k, p) :: rest => SetCredentials_all (fst (SetCredentials c k p)) rest
  end.

(** The lines all these calls write to the log, in order. *)
Fixpoint SetCredentials_log (c : Client) (calls : list (string * loc))
    : list string :=
  match calls with
  | [] => []
  | (k, p) :: rest =>
      snd (SetCredentials c k p)
        ++ SetCredentials_log (fst (SetCredentials c k p)) rest
  end.

End Calls.

(* ===================================================================== *)
(** * More concrete inputs *)
(* ===================================================================== *)

Module Sample2.
Import Heap Jwt.

(** The library at a later call: other random bytes, a later clock. *)
Definition later : GoLib := {|
  rand_Read := fun n => Some (replicate n "+"%byte);
  time_Now := {| Time.ext := Time.ext Sample.a_time + 1; Time.nsec := 0 |};
  sha256_Sum256 := Sample.checksum;
  pem_Decode := Sample.decode_pem;
  x509_ParseECPrivateKey := Sample.parse_ec;
  x509_ParsePKCS1PrivateKey := Sample.parse_pkcs1;
  x509_ParsePKCS8PrivateKey := Sample.parse_pkcs8;
  json_Encode_payload := Sample.json_payload;
  json_Encode_header := Sample.json_header;
  ecdsa_SignASN1 := Sample.sign_ec;
  rsa_SignPKCS1v15 := Sample.sign_rsa
|}.

(** The heap of the samples with one more buffer: a PKCS#8 structure
    around a key that is neither EC nor RSA. *)
Definition other_kind_pem : loc := 4%nat.

Definition a_heap : heap :=
  Sample.a_heap ++ [CBytes (Bytes.of_string "-8 ED25519")].

Definition other_kind_run : outcome :=
  signAndFormat (H := Sample.lib) (Sample.a_token false) other_kind_pem a_heap.

(** A second call on the buffer that the call with the RSA key from a
    loader left behind. *)
Definition second_rsa_run : outcome :=
  signAndFormat (H := Sample.lib) (Sample.a_token true) Sample.rsa_pem
    (mem Sample.rsa_run).

(** A heap with three more key buffers: a PKCS#8 structure around an EC
    key, one around an RSA key, and a block that no parser accepts. *)
Definition pkcs8_ec_pem : loc := 0%nat.
Definition pkcs8_rsa_pem : loc := 1%nat.
Definition unknown_pem : loc := 2%nat.

Definition more_keys : heap :=
  [CBytes (Bytes.of_string "-8EC KEY");
   CBytes (Bytes.of_string "-8RSA KEY");
   CBytes (Bytes.of_string "-DSA KEY")].

Definition pkcs8_ec_run : outcome :=
  signAndFormat (H := Sample.lib) (Sample.a_token false) pkcs8_ec_pem more_keys.

Definition pkcs8_rsa_run : outcome :=
  signAndFormat (H := Sample.lib) (Sample.a_token false) pkcs8_rsa_pem more_keys.

Definition unknown_run : outcome :=
  signAndFormat (H := Sample.lib) (Sample.a_token false) unknown_pem more_keys.

End Sample2.

(* ===================================================================== *)
(** * Facts about bytes, the heap and the encoders *)
(* ===================================================================== *)

Module BytesFacts.
Import Bytes.

Lemma zero_from_spec (n : nat) : forall (i : nat) (buf : list byte),
  (i + n)%nat = length buf ->
  zero_from i n buf = take i buf ++ replicate n x00.
Proof.
  induction n as [|n IH]; intros i buf Hlen; simpl.
  - rewrite app_nil_r, take_ge; [reflexivity | lia].
  - rewrite IH by (rewrite length_insert; lia).
    rewrite (take_S_r _ i x00) by (apply list_lookup_insert_eq; lia).
    rewrite take_insert_ge by lia.
    rewrite <- app_assoc. reflexivity.
Qed.

(** The loop leaves a buffer of the same length that holds only zeros. *)
Lemma zero_spec (buf : list byte) : zero buf = replicate (length buf) x00.
Proof. unfold zero. rewrite zero_from_spec by lia. reflexivity. Qed.

End BytesFacts.

Module HeapFacts.
Import Heap.

Lemma lookup_new (h : heap) (c : cell) (more : heap) :
  (h ++ c :: more) !! length h = Some c.
Proof. apply list_lookup_middle. reflexivity. Qed.

Lemma lookup_old (h more : heap) (q : loc) :
  (q < length h)%nat -> (h ++ more) !! q = h !! q.
Proof. apply lookup_app_l. Qed.

Lemma read_int_old (h more : heap) (q : loc) :
  (q < length h)%nat -> read_int (h ++ more) q = read_int h q.
Proof. intros Hq. unfold read_int. rewrite lookup_old by exact Hq. reflexivity. Qed.

Lemma read_int_new (h : heap) (z : Z) (more : heap) :
  read_int (h ++ CInt z :: more) (length h) = z.
Proof. unfold read_int. rewrite lookup_new. reflexivity. Qed.

Lemma read_bytes_old (h more : heap) (q : loc) :
  (q < length h)%nat -> read_bytes (h ++ more) q = read_bytes h q.
Proof. intros Hq. unfold read_bytes. rewrite lookup_old by exact Hq. reflexivity. Qed.

Lemma read_bytes_new (h : heap) (buf : list byte) (more : heap) :
  read_bytes (h ++ CBytes buf :: more) (length h) = buf.
Proof. unfold read_bytes. rewrite lookup_new. reflexivity. Qed.

Lemma zero_slice_length (h : heap) (p : loc) :
  length (zero_slice h p) = length h.
Proof.
  unfold zero_slice. destruct (h !! p) as [[buf|z]|]; try reflexivity.
  apply length_insert.
Qed.

(** Erasing one buffer leaves every other object as it was. *)
Lemma zero_slice_other (h : heap) (p q : loc) :
  p <> q -> zero_slice h p !! q = h !! q.
Proof.
  intros Hne. unfold zero_slice.
  destruct (h !! p) as [[buf|z]|]; try reflexivity.
  apply list_lookup_insert_ne. exact Hne.
Qed.

Lemma zero_slice_bytes (h : heap) (p : loc) (buf : list byte) :
  h !! p = Some (CBytes buf) ->
  zero_slice h p !! p = Some (CBytes (replicate (length buf) x00)).
Proof.
  intros Hp. unfold zero_slice. rewrite Hp.
  rewrite list_lookup_insert_eq by (apply lookup_lt_is_Some; eauto).
  rewrite BytesFacts.zero_spec. reflexivity.
Qed.

(** Erasing a buffer changes no integer. *)
Lemma zero_slice_read_int (h : heap) (p q : loc) :
  read_int (zero_slice h p) q = read_int h q.
Proof.
  unfold read_int. destruct (decide (p = q)) as [->|Hne].
  - unfold zero_slice. destruct (h !! q) as [[buf|z]|] eqn:Hq.
    + rewrite list_lookup_insert_eq by (apply lookup_lt_is_Some; eauto).
      reflexivity.
    + rewrite Hq. reflexivity.
    + rewrite Hq. reflexivity.
  - rewrite zero_slice_other by exact Hne. reflexivity.
Qed.

Lemma zero_slice_lookup_int (h : heap) (p q : loc) (z : Z) :
  h !! q = Some (CInt z) -> zero_slice h p !! q = Some (CInt z).
Proof.
  intros Hq. destruct (decide (p = q)) as [->|Hne].
  - unfold zero_slice. rewrite Hq. exact Hq.
  - rewrite zero_slice_other by exact Hne. exact Hq.
Qed.

(** Erasing the buffer in the middle of a heap. *)
Lemma zero_slice_middle (h : heap) (buf : list byte) (more : heap) :
  zero_slice (h ++ CBytes buf :: more) (length h)
  = h ++ CBytes (replicate (length buf) x00) :: more.
Proof.
  unfold zero_slice. rewrite lookup_new.
  rewrite BytesFacts.zero_spec.
  replace (length h) with (length h + 0)%nat at 1 by lia.
  rewrite insert_app_r. reflexivity.
Qed.

Lemma zero_slice_app_l (h more : heap) (p : loc) :
  (p < length h)%nat -> zero_slice (h ++ more) p = zero_slice h p ++ more.
Proof.
  intros Hp. unfold zero_slice. rewrite lookup_old by exact Hp.
  destruct (h !! p) as [[buf|z]|]; try reflexivity.
  apply insert_app_l. exact Hp.
Qed.

End HeapFacts.


Module Base64Facts.
Import Base64.

Lemma enc_in_alphabet (v : N) : in_alphabet (enc v) = true.
Proof.
  unfold enc.
  assert (Hlt : (N.to_nat (N.land v 63) < 64)%nat).
  { change 63%N with (N.ones 6). rewrite N.land_ones.
    pose proof (N.mod_upper_bound v (2 ^ 6)%N) as Hm.
    assert ((v mod 2 ^ 6 < 2 ^ 6)%N) as Hb by (apply Hm; discriminate).
    change (2 ^ 6)%N with 64%N in *. lia. }
  remember (N.to_nat (N.land v 63)) as k eqn:Hk. clear Hk.
  do 64 (destruct k as [|k]; [reflexivity|]).
  lia.
Qed.

Lemma EncodeToString_1 (a : byte) :
  EncodeToString [a]
  = String (enc (N.shiftr (N.shiftl (Byte.to_N a) 16) 18))
      (String (enc (N.shiftr (N.shiftl (Byte.to_N a) 16) 12)) EmptyString).
Proof. reflexivity. Qed.

Lemma EncodeToString_2 (a b : byte) :
  EncodeToString [a; b]
  = let v := N.lor (N.shiftl (Byte.to_N a) 16) (N.shiftl (Byte.to_N b) 8) in
    String (enc (N.shiftr v 18))
      (String (enc (N.shiftr v 12)) (String (enc (N.shiftr v 6)) EmptyString)).
Proof. reflexivity. Qed.

Lemma EncodeToString_3 (a b c : byte) (rest : list byte) :
  EncodeToString (a :: b :: c :: rest)
  = String (enc (N.shiftr (group a b c) 18))
      (String (enc (N.shiftr (group a b c) 12))
         (String (enc (N.shiftr (group a b c) 6))
            (String (enc (group a b c)) (EncodeToString rest)))).
Proof. reflexivity. Qed.

Lemma all_in_alphabet_cons (c : ascii) (s : string) :
  all_in_alphabet (String c s) = in_alphabet c && all_in_alphabet s.
Proof. reflexivity. Qed.

Lemma EncodeToString_chars_upto (n : nat) : forall src : list byte,
  (length src <= n)%nat -> all_in_alphabet (EncodeToString src) = true.
Proof.
  induction n as [|n IH]; intros src Hlen.
  - destruct src; [reflexivity | simpl in Hlen; lia].
  - destruct src as [|a [|b [|c rest]]].
    + reflexivity.
    + rewrite EncodeToString_1, !all_in_alphabet_cons, !enc_in_alphabet.
      reflexivity.
    + rewrite EncodeToString_2. cbv zeta.
      rewrite !all_in_alphabet_cons, !enc_in_alphabet. reflexivity.
    + rewrite EncodeToString_3, !all_in_alphabet_cons, !enc_in_alphabet.
      rewrite IH by (simpl in Hlen; lia). reflexivity.
Qed.

(** Every character of an encoding is a letter, a digit, [-] or [_]: there
    is no padding character and no dot. *)
Lemma EncodeToString_chars (src : list byte) :
  all_in_alphabet (EncodeToString src) = true.
Proof. apply (EncodeToString_chars_upto (length src)). lia. Qed.

Lemma EncodeToString_length_upto (n : nat) : forall src : list byte,
  (length src <= n)%nat ->
  String.length (EncodeToString src) = ((4 * length src + 2) / 3)%nat.
Proof.
  induction n as [|n IH]; intros src Hlen.
  - destruct src; [reflexivity | simpl in Hlen; lia].
  - destruct src as [|a [|b [|c rest]]].
    + reflexivity.
    + rewrite EncodeToString_1. reflexivity.
    + rewrite EncodeToString_2. reflexivity.
    + rewrite EncodeToString_3. cbn [String.length].
      rewrite IH by (simpl in Hlen; lia).
      change (length (a :: b :: c :: rest)) with (3 + length rest)%nat.
      replace (4 * (3 + length rest) + 2)%nat
        with (4 * length rest + 2 + 4 * 3)%nat by lia.
      rewrite Nat.div_add by discriminate. lia.
Qed.

(** An encoding of [n] bytes has [ceil (4 n / 3)] characters: nothing is
    added to fill the last group. *)
Lemma EncodeToString_length (src : list byte) :
  String.length (EncodeToString src) = ((4 * length src + 2) / 3)%nat.
Proof. apply (EncodeToString_length_upto (length src)). lia. Qed.

End Base64Facts.

Module StringsFacts.
Import Strings.

Lemma append_assoc (a b c : string) :
  String.append (String.append a b) c = String.append a (String.append b c).
Proof. induction a as [|x a IH]; simpl; [reflexivity | rewrite IH; reflexivity]. Qed.

Lemma alphabet_no_dot (s : string) :
  Base64.all_in_alphabet s = true -> has_dot s = false.
Proof.
  induction s as [|c s IH]; simpl; [reflexivity|].
  intros Hall. apply andb_true_iff in Hall as [Hc Hs].
  rewrite (IH Hs), orb_false_r.
  destruct (Ascii.eqb c dot) eqn:Heq; [|reflexivity].
  apply Ascii.eqb_eq in Heq. subst c. discriminate Hc.
Qed.

Lemma Split_no_dot (s : string) : has_dot s = false -> Split s = [s].
Proof.
  induction s as [|c s IH]; simpl; [reflexivity|].
  intros Hnd. apply orb_false_iff in Hnd as [Hc Hs].
  rewrite Hc, (IH Hs). reflexivity.
Qed.

(** The first piece of a split ends at the first dot. *)
Lemma Split_first (a rest : string) :
  has_dot a = false ->
  Split (String.append a (String dot rest)) = a :: Split rest.
Proof.
  induction a as [|c a IH]; simpl; intros Hnd.
  - reflexivity.
  - apply orb_false_iff in Hnd as [Hc Ha].
    rewrite Hc, (IH Ha). reflexivity.
Qed.

Lemma Split_three (a b c : string) :
  has_dot a = false -> has_dot b = false -> has_dot c = false ->
  Split (String.append (String.append a (String.append "." b))
           (String.append "." c)) = [a; b; c].
Proof.
  intros Ha Hb Hc. rewrite append_assoc. simpl.
  rewrite (Split_first a) by exact Ha.
  rewrite (Split_first b) by exact Hb.
  rewrite (Split_no_dot c) by exact Hc. reflexivity.
Qed.

End StringsFacts.


(* ===================================================================== *)
(** * Facts about [signAndFormat] *)
(* ===================================================================== *)

Module JwtFacts.
Import Heap Jwt HeapFacts.

Lemma lookup_offset (h more : heap) (k : nat) :
  (h ++ more) !! (length h + k)%nat = more !! k.
Proof. rewrite lookup_app_r by lia. f_equal. lia. Qed.

Lemma read_int_offset (h more : heap) (k : nat) :
  read_int (h ++ more) (length h + k) = read_int more k.
Proof. unfold read_int. rewrite lookup_offset. reflexivity. Qed.

Lemma read_int_cons (c : cell) (h : heap) (k : nat) :
  read_int (c :: h) (S k) = read_int h k.
Proof. reflexivity. Qed.

Lemma read_int_offset_map (zs : list Z) (more : heap) (k : nat) :
  read_int (map CInt zs ++ more) (length zs + k) = read_int more k.
Proof.
  rewrite <- (length_map CInt zs). apply read_int_offset.
Qed.

Lemma new_ints_spec (zs : list Z) : forall h : heap,
  new_ints h zs = (seq (length h) (length zs), h ++ map CInt zs).
Proof.
  induction zs as [|z zs IH]; intros h; simpl.
  - rewrite app_nil_r. reflexivity.
  - rewrite IH, length_app, <- app_assoc. simpl.
    replace (length h + 1)%nat with (S (length h)) by lia. reflexivity.
Qed.

Lemma new_ec_spec (h : heap) (k : ec_numbers) :
  new_ec h k
  = ({| ec_D := length h + 0; ec_X := length h + 1; ec_Y := length h + 2 |},
     h ++ [CInt (ecD k); CInt (ecX k); CInt (ecY k)]).
Proof.
  unfold new_ec, big_NewInt, alloc.
  rewrite !length_app, <- !app_assoc. simpl.
  f_equal. f_equal; lia.
Qed.

Lemma new_rsa_spec (h : heap) (k : rsa_numbers) :
  new_rsa h k
  = ({| rsa_N := length h + 0; rsa_E := rsaE k; rsa_D := length h + 1;
        rsa_Primes := seq (length h + 2) (length (rsaPrimes k));
        rsa_Dp := length h + (2 + (length (rsaPrimes k) + 0));
        rsa_Dq := length h + (2 + (length (rsaPrimes k) + 1));
        rsa_Qinv := length h + (2 + (length (rsaPrimes k) + 2)) |},
     h ++ CInt (rsaN k) :: CInt (rsaD k) :: map CInt (rsaPrimes k)
       ++ [CInt (rsaDp k); CInt (rsaDq k); CInt (rsaQinv k)]).
Proof.
  unfold new_rsa, big_NewInt, alloc.
  rewrite new_ints_spec.
  rewrite !length_app, !length_map. simpl length.
  rewrite <- !app_assoc. simpl.
  f_equal. f_equal; try lia. f_equal; lia.
Qed.

Lemma read_new_ints (zs : list Z) : forall (h more : heap),
  map (read_int (h ++ map CInt zs ++ more)) (seq (length h) (length zs)) = zs.
Proof.
  induction zs as [|z zs IH]; intros h more; simpl; [reflexivity|].
  rewrite read_int_new. f_equal.
  specialize (IH (h ++ [CInt z]) more).
  rewrite length_app in IH. simpl in IH.
  replace (length h + 1)%nat with (S (length h)) in IH by lia.
  rewrite <- app_assoc in IH. exact IH.
Qed.

Lemma ec_values_new (h : heap) (k : ec_numbers) :
  ec_values (snd (new_ec h k)) (fst (new_ec h k)) = k.
Proof.
  rewrite new_ec_spec. unfold ec_values. cbn [fst snd ec_D ec_X ec_Y].
  rewrite !read_int_offset. destruct k; reflexivity.
Qed.

Lemma rsa_values_new (h : heap) (k : rsa_numbers) :
  rsa_values (snd (new_rsa h k)) (fst (new_rsa h k)) = k.
Proof.
  rewrite new_rsa_spec. unfold rsa_values.
  cbn [fst snd rsa_N rsa_E rsa_D rsa_Primes rsa_Dp rsa_Dq rsa_Qinv].
  rewrite !read_int_offset.
  change (read_int (CInt (rsaN k) :: ?l) 0) with (rsaN k).
  cbn [Nat.add].
  rewrite !read_int_cons, !read_int_offset_map.
  replace (map (read_int _) _) with (rsaPrimes k).
  - destruct k; reflexivity.
  - symmetry.
    pose proof (read_new_ints (rsaPrimes k) (h ++ [CInt (rsaN k); CInt (rsaD k)])
                  [CInt (rsaDp k); CInt (rsaDq k); CInt (rsaQinv k)]) as Hr.
    rewrite length_app, <- app_assoc in Hr. exact Hr.
Qed.


Section Signing.
Context `{GoLib}.

Lemma sign_switch_Ok (t : token) (ep : string) (k : PrivateKey) (h : heap)
    (ss : string) (sig : list byte) (t' : token) (k' : PrivateKey) (h' : heap) :
  sign_switch t ep k h = (Ok (ss, sig), t', k', h') ->
  exists hj,
    json_Encode_header (Header t') = Some hj /\
    ss = String.append (Base64.EncodeToString hj) (String.append "." ep) /\
    ((exists key, k = KeyEC key /\ t' = set_Alg t es256 /\
        ecdsa_SignASN1 (ec_values h key)
          (sha256_Sum256 (Bytes.of_string ss)) = Some sig /\
        k' = KeyEC {| ec_D := length h + 0; ec_X := length h + 1;
                      ec_Y := length h + 2 |} /\
        h' = h ++ [CInt 0; CInt 0; CInt 0])
     \/
     (exists key, k = KeyRSA key /\ t' = set_Alg t rs256 /\
        rsa_SignPKCS1v15 (rsa_values h key)
          (sha256_Sum256 (Bytes.of_string ss)) = Some sig /\
        k' = KeyRSA {| rsa_N := length h + 1; rsa_E := rsa_E key;
                       rsa_D := length h + 0; rsa_Primes := rsa_Primes key;
                       rsa_Dp := rsa_Dp key; rsa_Dq := rsa_Dq key;
                       rsa_Qinv := rsa_Qinv key |} /\
        h' = h ++ [CInt 0; CInt 0])).
Proof.
  unfold sign_switch. destruct k as [key|key|].
  - destruct (json_Encode_header (Header (set_Alg t es256))) as [hj|] eqn:Hj;
      [|discriminate].
    destruct (ecdsa_SignASN1 _ _) as [sg|] eqn:Hs; [|discriminate].
    unfold big_NewInt, alloc. intros [= <- <- <- <- <-].
    exists hj. split; [exact Hj|]. split; [reflexivity|].
    left. exists key. repeat split; try assumption.
    + f_equal. rewrite !length_app. simpl. f_equal; lia.
    + rewrite <- !app_assoc. reflexivity.
  - destruct (json_Encode_header (Header (set_Alg t rs256))) as [hj|] eqn:Hj;
      [|discriminate].
    destruct (rsa_SignPKCS1v15 _ _) as [sg|] eqn:Hs; [|discriminate].
    unfold big_NewInt, alloc. intros [= <- <- <- <- <-].
    exists hj. split; [exact Hj|]. split; [reflexivity|].
    right. exists key. repeat split; try assumption.
    + f_equal. rewrite !length_app. simpl. f_equal; lia.
    + rewrite <- !app_assoc. reflexivity.
  - discriminate.
Qed.

Lemma sign_switch_extends (t : token) (ep : string) (k : PrivateKey) (h : heap) :
  exists more, snd (sign_switch t ep k h) = h ++ more.
Proof.
  unfold sign_switch. destruct k as [key|key|].
  - destruct (json_Encode_header _); [|exists []; simpl; by rewrite app_nil_r].
    destruct (ecdsa_SignASN1 _ _); [|exists []; simpl; by rewrite app_nil_r].
    unfold big_NewInt, alloc. simpl. rewrite <- !app_assoc. eauto.
  - destruct (json_Encode_header _); [|exists []; simpl; by rewrite app_nil_r].
    destruct (rsa_SignPKCS1v15 _ _); [|exists []; simpl; by rewrite app_nil_r].
    unfold big_NewInt, alloc. simpl. rewrite <- !app_assoc. eauto.
  - exists []. simpl. by rewrite app_nil_r.
Qed.

Lemma new_key_extends (h : heap) (n : parsed_key) :
  exists more, snd (new_key h n) = h ++ more.
Proof.
  destruct n as [e|r|]; unfold new_key.
  - rewrite new_ec_spec. simpl. eauto.
  - rewrite new_rsa_spec. simpl. eauto.
  - exists []. simpl. by rewrite app_nil_r.
Qed.

(** Signing only allocates: what was on the heap stays as it was. *)
Lemma sign_block_extends (t : token) (bl : loc) (h : heap) :
  exists more, mem (sign_block t bl h) = h ++ more.
Proof.
  unfold sign_block.
  destruct (parse_private_key _) as [numbers|];
    [|exists []; simpl; by rewrite app_nil_r].
  destruct (new_key_extends h numbers) as [m1 Hm1].
  destruct (new_key h numbers) as [k h1]. simpl in Hm1. subst h1.
  destruct (json_Encode_payload _) as [js|]; [|simpl; eauto].
  destruct (sign_switch_extends t (Base64.EncodeToString js) k (h ++ m1))
    as [m2 Hm2].
  destruct (sign_switch _ _ _ _) as [[[r t'] k'] h2]. simpl in Hm2. subst h2.
  rewrite <- app_assoc.
  destruct r as [[ss sg]|e]; simpl; eauto.
Qed.

Lemma sign_block_block (t : token) (bl : loc) (h : heap) :
  block (sign_block t bl h) = Some bl.
Proof.
  unfold sign_block.
  destruct (parse_private_key _); [|reflexivity].
  destruct (new_key _ _) as [k h1].
  destruct (json_Encode_payload _); [|reflexivity].
  destruct (sign_switch _ _ _ _) as [[[[[ss sg]|e] t'] k'] h2]; reflexivity.
Qed.

(** A successful return went through the type switch. *)
Lemma sign_block_Ok (t : token) (bl : loc) (h : heap) (s : string) :
  ret (sign_block t bl h) = Ok s ->
  exists numbers pj ss sig t' k' h2,
    parse_private_key (read_bytes h bl) = Some numbers /\
    json_Encode_payload (Payload t) = Some pj /\
    sign_switch t (Base64.EncodeToString pj)
      (fst (new_key h numbers)) (snd (new_key h numbers))
    = (Ok (ss, sig), t', k', h2) /\
    s = String.append ss (String.append "." (Base64.EncodeToString sig)) /\
    tok (sign_block t bl h) = t' /\
    mem (sign_block t bl h) = h2 /\
    parsed (sign_block t bl h) = Some (fst (new_key h numbers)) /\
    key (sign_block t bl h) = Some k'.
Proof.
  unfold sign_block.
  destruct (parse_private_key _) as [numbers|] eqn:Hp; [|discriminate].
  destruct (new_key h numbers) as [k h1] eqn:Hnk.
  destruct (json_Encode_payload _) as [pj|] eqn:Hj; [|discriminate].
  destruct (sign_switch _ _ _ _) as [[[[[ss sg]|e] t'] k'] h2] eqn:Hsw;
    [|discriminate].
  cbn [ret tok mem parsed key fst snd]. intros [= <-].
  exists numbers, pj, ss, sg, t', k', h2.
  rewrite Hnk. cbn [fst snd]. repeat split; assumption.
Qed.

Lemma sign_pem_not_pem (t : token) (p : loc) (h : heap) :
  pem_Decode (read_bytes h p) = None ->
  sign_pem t p h
  = {| ret := Err ErrNotPEM; tok := t; mem := h;
       block := None; parsed := None; key := None |}.
Proof. intros Hd. unfold sign_pem. rewrite Hd. reflexivity. Qed.

Lemma sign_pem_decoded (t : token) (p : loc) (h : heap) (der : list byte) :
  pem_Decode (read_bytes h p) = Some der ->
  sign_pem t p h
  = with_mem (sign_block t (length h) (h ++ [CBytes der]))
      (zero_slice (mem (sign_block t (length h) (h ++ [CBytes der])))
         (length h)).
Proof. intros Hd. unfold sign_pem, alloc. rewrite Hd. reflexivity. Qed.

(** After the second deferred function, the heap is the one before the
    call, then the decoded block, all zero, then what signing allocated. *)
Lemma sign_pem_mem (t : token) (p : loc) (h : heap) (der : list byte) :
  pem_Decode (read_bytes h p) = Some der ->
  exists more,
    mem (sign_pem t p h) = h ++ CBytes (replicate (length der) x00) :: more.
Proof.
  intros Hd. rewrite (sign_pem_decoded _ _ _ _ Hd).
  destruct (sign_block_extends t (length h) (h ++ [CBytes der])) as [more Hm].
  exists more. cbn [with_mem mem]. rewrite Hm, <- app_assoc. simpl.
  apply zero_slice_middle.
Qed.

Lemma signAndFormat_ret (t : token) (p : loc) (h : heap) :
  ret (signAndFormat t p h) = ret (sign_pem t p h).
Proof. unfold signAndFormat. destruct (shouldCleanKey t); reflexivity. Qed.

Lemma signAndFormat_tok (t : token) (p : loc) (h : heap) :
  tok (signAndFormat t p h) = tok (sign_pem t p h).
Proof. unfold signAndFormat. destruct (shouldCleanKey t); reflexivity. Qed.

Lemma signAndFormat_block (t : token) (p : loc) (h : heap) :
  block (signAndFormat t p h) = block (sign_pem t p h).
Proof. unfold signAndFormat. destruct (shouldCleanKey t); reflexivity. Qed.

Lemma signAndFormat_parsed (t : token) (p : loc) (h : heap) :
  parsed (signAndFormat t p h) = parsed (sign_pem t p h).
Proof. unfold signAndFormat. destruct (shouldCleanKey t); reflexivity. Qed.

Lemma signAndFormat_key (t : token) (p : loc) (h : heap) :
  key (signAndFormat t p h) = key (sign_pem t p h).
Proof. unfold signAndFormat. destruct (shouldCleanKey t); reflexivity. Qed.

Lemma signAndFormat_mem (t : token) (p : loc) (h : heap) :
  mem (signAndFormat t p h)
  = if shouldCleanKey t then zero_slice (mem (sign_pem t p h)) p
    else mem (sign_pem t p h).
Proof. unfold signAndFormat. destruct (shouldCleanKey t); reflexivity. Qed.

(** No integer changes between the end of the body and the return: the
    deferred functions write to byte buffers only. *)
Lemma signAndFormat_read_int (t : token) (p : loc) (h : heap) (der : list byte)
    (q : loc) :
  pem_Decode (read_bytes h p) = Some der ->
  read_int (mem (signAndFormat t p h)) q
  = read_int (mem (sign_block t (length h) (h ++ [CBytes der]))) q.
Proof.
  intros Hd. rewrite signAndFormat_mem, (sign_pem_decoded _ _ _ _ Hd).
  cbn [with_mem mem].
  destruct (shouldCleanKey t); rewrite ?zero_slice_read_int; reflexivity.
Qed.

(** Nor does an integer disappear: the deferred functions leave every
    integer cell where it is. *)
Lemma signAndFormat_lookup_int (t : token) (p : loc) (h : heap)
    (der : list byte) (q : loc) (z : Z) :
  pem_Decode (read_bytes h p) = Some der ->
  mem (sign_block t (length h) (h ++ [CBytes der])) !! q = Some (CInt z) ->
  mem (signAndFormat t p h) !! q = Some (CInt z).
Proof.
  intros Hd Hq. rewrite signAndFormat_mem, (sign_pem_decoded _ _ _ _ Hd).
  cbn [with_mem mem].
  destruct (shouldCleanKey t); repeat apply zero_slice_lookup_int; exact Hq.
Qed.

(** The call on a block that parses as an EC key, whichever parser
    accepted it: [alg] is ES256 and the result is what the ECDSA signer
    returns for the digest of [header.payload]. *)
Lemma signAndFormat_EC (t : token) (p : loc) (h : heap) (der : list byte)
    (e : ec_numbers) (pj hj : list byte) :
  pem_Decode (read_bytes h p) = Some der ->
  parse_private_key der = Some (ParsedEC e) ->
  json_Encode_payload (Payload t) = Some pj ->
  json_Encode_header (Header (set_Alg t es256)) = Some hj ->
  tok (signAndFormat t p h) = set_Alg t es256
  /\ ret (signAndFormat t p h)
     = match ecdsa_SignASN1 e
               (digest (String.append (Base64.EncodeToString hj)
                          (String.append "." (Base64.EncodeToString pj)))) with
       | Some sig =>
           Ok (String.append
                 (String.append (Base64.EncodeToString hj)
                    (String.append "." (Base64.EncodeToString pj)))
                 (String.append "." (Base64.EncodeToString sig)))
       | None => Err ErrSignEC
       end.
Proof.
  intros Hd Hp Hj Hh.
  rewrite signAndFormat_ret, signAndFormat_tok, (sign_pem_decoded _ _ _ _ Hd).
  cbn [with_mem ret tok]. unfold sign_block.
  rewrite (read_bytes_new _ der []), Hp. unfold new_key.
  pose proof (ec_values_new (h ++ [CBytes der]) e) as Hv.
  destruct (new_ec (h ++ [CBytes der]) e) as [k h1]. cbn [fst snd] in Hv.
  rewrite Hj. unfold sign_switch. rewrite Hh, Hv. unfold digest.
  destruct (ecdsa_SignASN1 e _) as [sg|]; split; reflexivity.
Qed.

(** The same for a block that parses as an RSA key: RS256 and the
    PKCS#1 v1.5 signer. *)
Lemma signAndFormat_RSA (t : token) (p : loc) (h : heap) (der : list byte)
    (r : rsa_numbers) (pj hj : list byte) :
  pem_Decode (read_bytes h p) = Some der ->
  parse_private_key der = Some (ParsedRSA r) ->
  json_Encode_payload (Payload t) = Some pj ->
  json_Encode_header (Header (set_Alg t rs256)) = Some hj ->
  tok (signAndFormat t p h) = set_Alg t rs256
  /\ ret (signAndFormat t p h)
     = match rsa_SignPKCS1v15 r
               (digest (String.append (Base64.EncodeToString hj)
                          (String.append "." (Base64.EncodeToString pj)))) with
       | Some sig =>
           Ok (String.append
                 (String.append (Base64.EncodeToString hj)
                    (String.append "." (Base64.EncodeToString pj)))
                 (String.append "." (Base64.EncodeToString sig)))
       | None => Err ErrSignRSA
       end.
Proof.
  intros Hd Hp Hj Hh.
  rewrite signAndFormat_ret, signAndFormat_tok, (sign_pem_decoded _ _ _ _ Hd).
  cbn [with_mem ret tok]. unfold sign_block.
  rewrite (read_bytes_new _ der []), Hp. unfold new_key.
  pose proof (rsa_values_new (h ++ [CBytes der]) r) as Hv.
  destruct (new_rsa (h ++ [CBytes der]) r) as [k h1]. cbn [fst snd] in Hv.
  rewrite Hj. unfold sign_switch. rewrite Hh, Hv. unfold digest.
  destruct (rsa_SignPKCS1v15 r _) as [sg|]; split; reflexivity.
Qed.

(** The pair returned depends on the key object only through the integers
    it holds. *)
Lemma sign_switch_ec_values (t : token) (ep : string)
    (a b : ecdsa_PrivateKey) (h1 h2 : heap) :
  ec_values h1 a = ec_values h2 b ->
  fst (fst (fst (sign_switch t ep (KeyEC a) h1)))
  = fst (fst (fst (sign_switch t ep (KeyEC b) h2))).
Proof.
  intros Hv. unfold sign_switch. rewrite Hv.
  destruct (json_Encode_header _); [|reflexivity].
  destruct (ecdsa_SignASN1 _ _); reflexivity.
Qed.

Lemma sign_switch_rsa_values (t : token) (ep : string)
    (a b : rsa_PrivateKey) (h1 h2 : heap) :
  rsa_values h1 a = rsa_values h2 b ->
  fst (fst (fst (sign_switch t ep (KeyRSA a) h1)))
  = fst (fst (fst (sign_switch t ep (KeyRSA b) h2))).
Proof.
  intros Hv. unfold sign_switch. rewrite Hv.
  destruct (json_Encode_header _); [|reflexivity].
  destruct (rsa_SignPKCS1v15 _ _); reflexivity.
Qed.

Lemma sign_block_ret_indep (t : token) (b1 b2 : loc) (h1 h2 : heap) :
  read_bytes h1 b1 = read_bytes h2 b2 ->
  ret (sign_block t b1 h1) = ret (sign_block t b2 h2).
Proof.
  intros Hb. unfold sign_block. rewrite Hb.
  destruct (parse_private_key _) as [[e|r|]|]; [| | |reflexivity];
    unfold new_key.
  - pose proof (ec_values_new h1 e) as E1. pose proof (ec_values_new h2 e) as E2.
    destruct (new_ec h1 e) as [k1 m1], (new_ec h2 e) as [k2 m2].
    cbn [fst snd] in E1, E2.
    destruct (json_Encode_payload _) as [pj|]; [|reflexivity].
    pose proof (sign_switch_ec_values t (Base64.EncodeToString pj) k1 k2 m1 m2
                  (eq_trans E1 (eq_sym E2))) as Hs.
    destruct (sign_switch _ _ (KeyEC k1) _) as [[[r1 t1] x1] y1].
    destruct (sign_switch _ _ (KeyEC k2) _) as [[[r2 t2] x2] y2].
    cbn [fst] in Hs. subst r2.
    destruct r1 as [[ss sg]|err]; reflexivity.
  - pose proof (rsa_values_new h1 r) as E1. pose proof (rsa_values_new h2 r) as E2.
    destruct (new_rsa h1 r) as [k1 m1], (new_rsa h2 r) as [k2 m2].
    cbn [fst snd] in E1, E2.
    destruct (json_Encode_payload _) as [pj|]; [|reflexivity].
    pose proof (sign_switch_rsa_values t (Base64.EncodeToString pj) k1 k2 m1 m2
                  (eq_trans E1 (eq_sym E2))) as Hs.
    destruct (sign_switch _ _ (KeyRSA k1) _) as [[[r1 t1] x1] y1].
    destruct (sign_switch _ _ (KeyRSA k2) _) as [[[r2 t2] x2] y2].
    cbn [fst] in Hs. subst r2.
    destruct r1 as [[ss sg]|err]; reflexivity.
  - destruct (json_Encode_payload _) as [pj|]; reflexivity.
Qed.

(** What [signAndFormat] returns is a function of the token and of the
    bytes of the key buffer alone. *)
Lemma signAndFormat_ret_indep (t : token) (p : loc) (h1 h2 : heap) :
  read_bytes h1 p = read_bytes h2 p ->
  ret (signAndFormat t p h1) = ret (signAndFormat t p h2).
Proof.
  intros Hb. rewrite !signAndFormat_ret. unfold sign_pem, alloc. rewrite Hb.
  destruct (pem_Decode _) as [der|]; [|reflexivity].
  cbn [with_mem ret].
  apply sign_block_ret_indep.
  rewrite !(read_bytes_new _ der []). reflexivity.
Qed.

(** Every successful return, taken apart: the block decoded, a parser
    accepted it, both JSON encodings succeeded, and the signer that
    matches the parsed key signed the digest of [header.payload]. *)
Lemma signAndFormat_Ok_inv (t : token) (p : loc) (h : heap) (s : string) :
  ret (signAndFormat t p h) = Ok s ->
  exists der numbers hj pj sig,
    pem_Decode (read_bytes h p) = Some der /\
    parse_private_key der = Some numbers /\
    json_Encode_header (Header (tok (signAndFormat t p h))) = Some hj /\
    json_Encode_payload (Payload t) = Some pj /\
    s = String.append
          (String.append (Base64.EncodeToString hj)
             (String.append "." (Base64.EncodeToString pj)))
          (String.append "." (Base64.EncodeToString sig)) /\
    match numbers with
    | ParsedEC e =>
        tok (signAndFormat t p h) = set_Alg t es256 /\
        ecdsa_SignASN1 e
          (sha256_Sum256 (Bytes.of_string
             (String.append (Base64.EncodeToString hj)
                (String.append "." (Base64.EncodeToString pj))))) = Some sig
    | ParsedRSA r =>
        tok (signAndFormat t p h) = set_Alg t rs256 /\
        rsa_SignPKCS1v15 r
          (sha256_Sum256 (Bytes.of_string
             (String.append (Base64.EncodeToString hj)
                (String.append "." (Base64.EncodeToString pj))))) = Some sig
    | ParsedOther => False
    end.
Proof.
  rewrite signAndFormat_ret, signAndFormat_tok. intros Hok.
  destruct (pem_Decode (read_bytes h p)) as [der|] eqn:Hd.
  2:{ rewrite (sign_pem_not_pem _ _ _ Hd) in Hok. discriminate. }
  rewrite (sign_pem_decoded _ _ _ _ Hd) in Hok |- *.
  cbn [with_mem ret tok] in Hok |- *.
  destruct (sign_block_Ok _ _ _ _ Hok)
    as (numbers & pj & ss & sg & t' & k' & h2 & Hp & Hj & Hsw & Hs & Ht & _).
  rewrite (read_bytes_new _ der []) in Hp.
  destruct (sign_switch_Ok _ _ _ _ _ _ _ _ _ Hsw) as (hj & Hh & Hss & Hcase).
  exists der, numbers, hj, pj, sg.
  rewrite Ht. subst ss.
  repeat (split; [first [reflexivity | assumption]|]).
  destruct Hcase as [(a & Hk & Ht' & Hsig & _) | (a & Hk & Ht' & Hsig & _)].
  - destruct numbers as [e|r|]; unfold new_key in Hk, Hsig.
    + pose proof (ec_values_new (h ++ [CBytes der]) e) as Hv.
      destruct (new_ec (h ++ [CBytes der]) e) as [k0 h0].
      cbn [fst snd] in Hk, Hsig, Hv. injection Hk as ->.
      rewrite Hv in Hsig. split; assumption.
    + destruct (new_rsa _ r); discriminate.
    + discriminate.
  - destruct numbers as [e|r|]; unfold new_key in Hk, Hsig.
    + destruct (new_ec _ e); discriminate.
    + pose proof (rsa_values_new (h ++ [CBytes der]) r) as Hv.
      destruct (new_rsa (h ++ [CBytes der]) r) as [k0 h0].
      cbn [fst snd] in Hk, Hsig, Hv. injection Hk as ->.
      rewrite Hv in Hsig. split; assumption.
    + discriminate.
Qed.

End Signing.

(** Allocation after the key was built does not change what it holds. *)
Lemma key_values_new (h : heap) (numbers : parsed_key) (more : heap) :
  key_values (snd (new_key h numbers) ++ more) (fst (new_key h numbers))
  = numbers.
Proof.
  destruct numbers as [e|r|]; unfold new_key; [| |reflexivity].
  - rewrite new_ec_spec. cbn [fst snd key_values]. unfold ec_values.
    cbn [ec_D ec_X ec_Y]. rewrite <- app_assoc, !read_int_offset.
    destruct e; reflexivity.
  - rewrite new_rsa_spec. cbn [fst snd key_values]. unfold rsa_values.
    cbn [rsa_N rsa_E rsa_D rsa_Primes rsa_Dp rsa_Dq rsa_Qinv].
    rewrite <- app_assoc, !read_int_offset.
    cbn [app Nat.add].
    change (read_int (CInt (rsaN r) :: ?l) 0) with (rsaN r).
    rewrite <- !app_assoc.
    rewrite !read_int_cons, !read_int_offset_map.
    replace (map (read_int _) _) with (rsaPrimes r).
    + destruct r; reflexivity.
    + symmetry.
      pose proof (read_new_ints (rsaPrimes r)
                    (h ++ [CInt (rsaN r); CInt (rsaD r)])
                    ([CInt (rsaDp r); CInt (rsaDq r); CInt (rsaQinv r)] ++ more))
        as Hr.
      rewrite length_app, <- app_assoc in Hr. exact Hr.
Qed.

Lemma key_values_zero_slice (h : heap) (p : loc) (k : PrivateKey) :
  key_values (zero_slice h p) k = key_values h k.
Proof.
  destruct k as [key|key|]; [| |reflexivity]; cbn [key_values];
    unfold ec_values, rsa_values; rewrite !zero_slice_read_int.
  - reflexivity.
  - f_equal. f_equal. apply map_ext. intros l. apply zero_slice_read_int.
Qed.

Section Remaining.
Context `{GoLib}.

Lemma sign_block_parsed (t : token) (bl : loc) (h : heap) (k : PrivateKey) :
  parsed (sign_block t bl h) = Some k ->
  exists numbers more,
    parse_private_key (read_bytes h bl) = Some numbers
    /\ k = fst (new_key h numbers)
    /\ mem (sign_block t bl h) = snd (new_key h numbers) ++ more.
Proof.
  unfold sign_block.
  destruct (parse_private_key _) as [numbers|] eqn:Hp; [|discriminate].
  destruct (new_key h numbers) as [k0 h1] eqn:Hnk.
  destruct (json_Encode_payload _) as [pj|].
  - destruct (sign_switch_extends t (Base64.EncodeToString pj) k0 h1)
      as [more Hm].
    destruct (sign_switch _ _ _ _) as [[[[[ss sg]|e] t'] k'] h2];
      cbn [parsed mem snd] in *; intros [= <-];
      exists numbers, more; rewrite Hnk; repeat split; assumption.
  - cbn [parsed mem]. intros [= <-]. exists numbers, [].
    rewrite Hnk, app_nil_r. repeat split; reflexivity.
Qed.

(** Whatever the call returns, the integers the parser created are
    still in memory with the values the parser found. *)
Lemma parsed_numbers_remain (t : token) (p : loc) (h : heap) (der : list byte)
    (k : PrivateKey) :
  pem_Decode (read_bytes h p) = Some der ->
  parsed (signAndFormat t p h) = Some k ->
  parse_private_key der = Some (key_values (mem (signAndFormat t p h)) k).
Proof.
  intros Hd. rewrite signAndFormat_parsed, signAndFormat_mem.
  rewrite (sign_pem_decoded _ _ _ _ Hd). cbn [with_mem parsed mem].
  intros Hk.
  destruct (sign_block_parsed _ _ _ _ Hk) as (numbers & more & Hp & -> & Hm).
  rewrite (read_bytes_new _ der []) in Hp.
  destruct (shouldCleanKey t); rewrite ?key_values_zero_slice, Hm,
    key_values_new; exact Hp.
Qed.

End Remaining.

End JwtFacts.

(* ===================================================================== *)
(** * Signing: erasure, key types, the compact token *)
(* ===================================================================== *)

Module SigningClaims.
Import Heap Jwt HeapFacts JwtFacts.

Lemma all_zerob_spec (h : heap) (cells : list loc) :
  all_zero h cells <-> all_zerob h cells = true.
Proof.
  assert (Hone : forall l, h !! l = Some (CInt 0) <-> is_zero_int h l = true).
  { intros l. unfold is_zero_int.
    destruct (h !! l) as [[buf|z]|]; split; try discriminate.
    - intros [= ->]. reflexivity.
    - intros Hz. apply Z.eqb_eq in Hz. subst z. reflexivity. }
  unfold all_zero, all_zerob. rewrite forallb_forall, Forall_forall.
  split; intros Hall l Hl.
  - apply Hone, Hall, list_elem_of_In, Hl.
  - apply Hone, Hall, list_elem_of_In, Hl.
Qed.

Lemma erased_in_placeb_spec (o : outcome) :
  erased_in_place o <-> erased_in_placeb o = true.
Proof.
  unfold erased_in_place, erased_in_placeb.
  destruct (parsed o) as [k|].
  - rewrite <- all_zerob_spec. split; [intros Hc; apply Hc; reflexivity|].
    intros Hz k' [= <-]. exact Hz.
  - split; [reflexivity | discriminate].
Qed.

Lemma key_reads_zerob_spec (o : outcome) :
  key_reads_zero o <-> key_reads_zerob o = true.
Proof.
  unfold key_reads_zero, key_reads_zerob.
  destruct (key o) as [k|].
  - rewrite <- all_zerob_spec. split; [intros Hc; apply Hc; reflexivity|].
    intros Hz k' [= <-]. exact Hz.
  - split; [reflexivity | discriminate].
Qed.

Section WithLibrary.
Context `{GoLib}.

(** The first deferred function: with [shouldCleanKey], the key buffer
    holds only zeros when the function returns, whatever it returns. *)
Lemma pem_erased (t : token) (p : loc) (h : heap) (buf : list byte) :
  h !! p = Some (CBytes buf) ->
  shouldCleanKey t = true ->
  mem (signAndFormat t p h) !! p = Some (CBytes (replicate (length buf) x00)).
Proof.
  intros Hp Hclean. rewrite signAndFormat_mem, Hclean.
  assert (Hlt : (p < length h)%nat) by (apply lookup_lt_is_Some; eauto).
  destruct (pem_Decode (read_bytes h p)) as [der|] eqn:Hd.
  - destruct (sign_pem_mem t p h der Hd) as [more ->].
    rewrite zero_slice_app_l by exact Hlt.
    rewrite lookup_old by (rewrite zero_slice_length; exact Hlt).
    apply zero_slice_bytes, Hp.
  - rewrite (sign_pem_not_pem _ _ _ Hd). cbn [mem].
    apply zero_slice_bytes, Hp.
Qed.

(** After a successful return the fields assigned [big.NewInt(0)] refer
    to zero. *)
Lemma key_fields_reset (t : token) (p : loc) (h : heap) (s : string) :
  ret (signAndFormat t p h) = Ok s ->
  exists k, key (signAndFormat t p h) = Some k /\ k <> KeyOther /\
            all_zero (mem (signAndFormat t p h)) (reset_cells k).
Proof.
  intros Hok. pose proof Hok as Hok'.
  rewrite signAndFormat_ret in Hok'.
  destruct (pem_Decode (read_bytes h p)) as [der|] eqn:Hd.
  2:{ rewrite (sign_pem_not_pem _ _ _ Hd) in Hok'. discriminate. }
  rewrite (sign_pem_decoded _ _ _ _ Hd) in Hok'. cbn [with_mem ret] in Hok'.
  destruct (sign_block_Ok _ _ _ _ Hok')
    as (numbers & pj & ss & sg & t' & k' & h2 & _ & _ & Hsw & _ & _ & Hm & _ & Hk).
  exists k'. split.
  { rewrite signAndFormat_key, (sign_pem_decoded _ _ _ _ Hd). exact Hk. }
  unfold all_zero.
  destruct (sign_switch_Ok _ _ _ _ _ _ _ _ _ Hsw)
    as (hj & _ & _ & [(a & _ & _ & _ & -> & Hh) | (a & _ & _ & _ & -> & Hh)]);
    (split; [discriminate|]);
    cbn [reset_cells ec_D ec_X ec_Y rsa_D rsa_N];
    repeat constructor;
    apply (signAndFormat_lookup_int _ _ _ _ _ _ Hd);
    rewrite Hm, Hh, lookup_offset; reflexivity.
Qed.

(** What the code does erase.  When [signAndFormat] returns a token, the
    fields [D], [X], [Y] of an EC key object, or [D] and [N] of an RSA key
    object, lead to integers that hold zero; the integers the parser
    created, the RSA primes and CRT values among them, keep the values the
    parser found, whatever the call returns.  When the token was built
    with [shouldCleanKey], the PEM buffer passed in holds only zeros on
    every exit path, error paths included. *)
Lemma erasure_after_signing (t : token) (p : loc) (h : heap) (buf : list byte) :
  h !! p = Some (CBytes buf) ->
  (forall s, ret (signAndFormat t p h) = Ok s ->
     exists k, key (signAndFormat t p h) = Some k /\ k <> KeyOther /\
               all_zero (mem (signAndFormat t p h)) (reset_cells k))
  /\ (forall der k,
      pem_Decode buf = Some der ->
      parsed (signAndFormat t p h) = Some k ->
      parse_private_key der
      = Some (key_values (mem (signAndFormat t p h)) k))
  /\ (shouldCleanKey t = true ->
      mem (signAndFormat t p h) !! p
      = Some (CBytes (replicate (length buf) x00))).
Proof.
  intros Hp. split; [|split].
  - intros s. apply key_fields_reset.
  - intros der k Hd. apply parsed_numbers_remain.
    unfold read_bytes. rewrite Hp. exact Hd.
  - apply pem_erased. exact Hp.
Qed.

(** The error of a call whose block no parser accepts. *)
Lemma no_structure_parses (t : token) (p : loc) (h : heap) (der : list byte) :
  pem_Decode (read_bytes h p) = Some der ->
  x509_ParseECPrivateKey der = None ->
  x509_ParsePKCS1PrivateKey der = None ->
  x509_ParsePKCS8PrivateKey der = None ->
  ret (signAndFormat t p h) = Err ErrDeduceKeyType.
Proof.
  intros Hd He Hr H8.
  rewrite signAndFormat_ret, (sign_pem_decoded _ _ _ _ Hd).
  cbn [with_mem ret]. unfold sign_block.
  rewrite (read_bytes_new _ der []). unfold parse_private_key.
  rewrite He, Hr, H8. reflexivity.
Qed.

(** C2.  The key type is found by trying the EC parser, then the PKCS#1
    parser, then the PKCS#8 parser on the bytes of the PEM block, and the
    first that accepts them fixes the algorithm.  When the EC parser
    accepts them, or the first two reject them and the PKCS#8 parser finds
    an EC key, [alg] is ES256 and the call returns the token signed by the
    ECDSA signer (or the signer's error).  When the EC parser rejects them
    and the PKCS#1 parser accepts them, or both reject them and the PKCS#8
    parser finds an RSA key, [alg] is RS256 and the call returns the token
    signed by the PKCS#1 v1.5 signer (or the signer's error).  When none
    accepts them the call fails with a key-format error, and so does a
    call on bytes that hold no PEM block.  Conversely every token returned
    comes from one of the four accepting cases. *)
Theorem key_type_detection (t : token) (p : loc) (h : heap) :
  (pem_Decode (read_bytes h p) = None ->
   ret (signAndFormat t p h) = Err ErrNotPEM)
  /\ (forall der, pem_Decode (read_bytes h p) = Some der ->
      (x509_ParseECPrivateKey der = None ->
       x509_ParsePKCS1PrivateKey der = None ->
       x509_ParsePKCS8PrivateKey der = None ->
       ret (signAndFormat t p h) = Err ErrDeduceKeyType)
      /\ (forall e pj hj,
          x509_ParseECPrivateKey der = Some e
          \/ (x509_ParseECPrivateKey der = None /\
              x509_ParsePKCS1PrivateKey der = None /\
              x509_ParsePKCS8PrivateKey der = Some (ParsedEC e)) ->
          json_Encode_payload (Payload t) = Some pj ->
          json_Encode_header (Header (set_Alg t es256)) = Some hj ->
          let signingInput :=
            String.append (Base64.EncodeToString hj)
              (String.append "." (Base64.EncodeToString pj)) in
          Alg (Header (tok (signAndFormat t p h))) = es256
          /\ ret (signAndFormat t p h)
             = match ecdsa_SignASN1 e (digest signingInput) with
               | Some sig =>
                   Ok (String.append signingInput
                         (String.append "." (Base64.EncodeToString sig)))
               | None => Err ErrSignEC
               end)
      /\ (forall r pj hj,
          (x509_ParseECPrivateKey der = None /\
           x509_ParsePKCS1PrivateKey der = Some r)
          \/ (x509_ParseECPrivateKey der = None /\
              x509_ParsePKCS1PrivateKey der = None /\
              x509_ParsePKCS8PrivateKey der = Some (ParsedRSA r)) ->
          json_Encode_payload (Payload t) = Some pj ->
          json_Encode_header (Header (set_Alg t rs256)) = Some hj ->
          let signingInput :=
            String.append (Base64.EncodeToString hj)
              (String.append "." (Base64.EncodeToString pj)) in
          Alg (Header (tok (signAndFormat t p h))) = rs256
          /\ ret (signAndFormat t p h)
             = match rsa_SignPKCS1v15 r (digest signingInput) with
               | Some sig =>
                   Ok (String.append signingInput
                         (String.append "." (Base64.EncodeToString sig)))
               | None => Err ErrSignRSA
               end)
      /\ (forall s, ret (signAndFormat t p h) = Ok s ->
          exists hj pj sig,
            json_Encode_header (Header (tok (signAndFormat t p h))) = Some hj /\
            json_Encode_payload (Payload t) = Some pj /\
            let signingInput :=
              String.append (Base64.EncodeToString hj)
                (String.append "." (Base64.EncodeToString pj)) in
            let alg := Alg (Header (tok (signAndFormat t p h))) in
            s = String.append signingInput
                  (String.append "." (Base64.EncodeToString sig)) /\
            ((exists e, x509_ParseECPrivateKey der = Some e /\
                        signed_EC e alg signingInput sig)
             \/ (exists r, x509_ParseECPrivateKey der = None /\
                           x509_ParsePKCS1PrivateKey der = Some r /\
                           signed_RSA r alg signingInput sig)
             \/ (exists e, x509_ParseECPrivateKey der = None /\
                           x509_ParsePKCS1PrivateKey der = None /\
                           x509_ParsePKCS8PrivateKey der = Some (ParsedEC e) /\
                           signed_EC e alg signingInput sig)
             \/ (exists r, x509_ParseECPrivateKey der = None /\
                           x509_ParsePKCS1PrivateKey der = None /\
                           x509_ParsePKCS8PrivateKey der = Some (ParsedRSA r) /\
                           signed_RSA r alg signingInput sig))))
  /\ key_format_error ErrNotPEM = true
  /\ key_format_error ErrDeduceKeyType = true.
Proof.
  split; [|split; [|split; reflexivity]].
  - intros Hd. rewrite signAndFormat_ret, (sign_pem_not_pem _ _ _ Hd).
    reflexivity.
  - intros der Hd. split; [apply no_structure_parses; exact Hd|].
    split; [|split].
    + intros e pj hj Hfirst Hj Hh. cbv zeta.
      assert (Hp : parse_private_key der = Some (ParsedEC e)).
      { unfold parse_private_key.
        destruct Hfirst as [-> | (-> & -> & ->)]; reflexivity. }
      destruct (signAndFormat_EC t p h der e pj hj Hd Hp Hj Hh) as [-> Hret].
      split; [reflexivity | exact Hret].
    + intros r pj hj Hfirst Hj Hh. cbv zeta.
      assert (Hp : parse_private_key der = Some (ParsedRSA r)).
      { unfold parse_private_key.
        destruct Hfirst as [(-> & ->) | (-> & -> & ->)]; reflexivity. }
      destruct (signAndFormat_RSA t p h der r pj hj Hd Hp Hj Hh) as [-> Hret].
      split; [reflexivity | exact Hret].
    + intros s Hok.
      destruct (signAndFormat_Ok_inv _ _ _ _ Hok)
        as (der' & numbers & hj & pj & sg & Hd' & Hp & Hh & Hj & Hs & Hcase).
      rewrite Hd in Hd'. injection Hd' as <-.
      exists hj, pj, sg. split; [exact Hh|]. split; [exact Hj|].
      cbv zeta. split; [exact Hs|].
      unfold parse_private_key in Hp. unfold signed_EC, signed_RSA, digest.
      destruct (x509_ParseECPrivateKey der) as [e|] eqn:He.
      { injection Hp as <-. destruct Hcase as [-> Hsig].
        left. exists e. repeat split; assumption. }
      destruct (x509_ParsePKCS1PrivateKey der) as [r|] eqn:Hr.
      { injection Hp as <-. destruct Hcase as [-> Hsig].
        right; left. exists r. repeat split; assumption. }
      destruct numbers as [e|r|]; [| |contradiction];
        destruct Hcase as [-> Hsig].
      * right; right; left. exists e. repeat split; assumption.
      * right; right; right. exists r. repeat split; assumption.
Qed.

(** C6.  A token that [signAndFormat] returns splits at its dots into
    exactly three pieces: the unpadded base64url encodings of the JSON of
    the header, of the JSON of the payload, and of the bytes the signer
    returned for the digest of the first two pieces joined by a dot. *)
Theorem compact_token_three_segments (t : token) (p : loc) (h : heap)
    (s : string) :
  ret (signAndFormat t p h) = Ok s ->
  exists hj pj sig,
    json_Encode_header (Header (tok (signAndFormat t p h))) = Some hj /\
    json_Encode_payload (Payload t) = Some pj /\
    ((exists e, ecdsa_SignASN1 e
                  (digest (String.append (Base64.EncodeToString hj)
                             (String.append "." (Base64.EncodeToString pj))))
                = Some sig)
     \/ (exists r, rsa_SignPKCS1v15 r
                     (digest (String.append (Base64.EncodeToString hj)
                                (String.append "." (Base64.EncodeToString pj))))
                   = Some sig)) /\
    Strings.Split s
    = [Base64.EncodeToString hj; Base64.EncodeToString pj;
       Base64.EncodeToString sig] /\
    Forall (fun seg => Base64.all_in_alphabet seg = true) (Strings.Split s) /\
    map String.length (Strings.Split s)
    = map (fun src => ((4 * length src + 2) / 3)%nat) [hj; pj; sig].
Proof.
  intros Hok.
  destruct (signAndFormat_Ok_inv _ _ _ _ Hok)
    as (der & numbers & hj & pj & sg & _ & _ & Hh & Hj & Hs & Hcase).
  exists hj, pj, sg. split; [exact Hh|]. split; [exact Hj|]. split.
  { unfold digest.
    destruct numbers as [e|r|]; [left; exists e|right; exists r|contradiction];
      apply Hcase. }
  assert (Hsplit : Strings.Split s
                   = [Base64.EncodeToString hj; Base64.EncodeToString pj;
                      Base64.EncodeToString sg]).
  { subst s. apply StringsFacts.Split_three;
      apply StringsFacts.alphabet_no_dot, Base64Facts.EncodeToString_chars. }
  rewrite Hsplit. split; [reflexivity|]. split.
  - repeat constructor; apply Base64Facts.EncodeToString_chars.
  - cbn [map]. rewrite !Base64Facts.EncodeToString_length. reflexivity.
Qed.

(** C10.  When the input decodes as a PEM block, the decoded bytes live in
    a buffer of their own, which holds only zeros when the function
    returns, whatever it returns and whether or not [shouldCleanKey] is
    set; without [shouldCleanKey] the PEM buffer itself is unchanged, and a
    later call on it returns what a call before would have returned. *)
Theorem block_erased_key_buffer_kept (t : token) (p : loc) (h : heap)
    (buf der : list byte) :
  h !! p = Some (CBytes buf) ->
  pem_Decode buf = Some der ->
  block (signAndFormat t p h) = Some (length h)
  /\ length h <> p
  /\ mem (signAndFormat t p h) !! length h
     = Some (CBytes (replicate (length der) x00))
  /\ (shouldCleanKey t = false ->
      mem (signAndFormat t p h) !! p = Some (CBytes buf)
      /\ forall t', ret (signAndFormat t' p (mem (signAndFormat t p h)))
                    = ret (signAndFormat t' p h)).
Proof.
  intros Hp Hdec.
  assert (Hlt : (p < length h)%nat) by (apply lookup_lt_is_Some; eauto).
  assert (Hd : pem_Decode (read_bytes h p) = Some der).
  { unfold read_bytes. rewrite Hp. exact Hdec. }
  destruct (sign_pem_mem t p h der Hd) as [more Hm].
  split; [|split; [lia|split]].
  - rewrite signAndFormat_block, (sign_pem_decoded _ _ _ _ Hd).
    cbn [with_mem block]. apply sign_block_block.
  - rewrite signAndFormat_mem, Hm. destruct (shouldCleanKey t).
    + rewrite zero_slice_app_l by exact Hlt.
      rewrite <- (zero_slice_length h p). apply lookup_new.
    + apply lookup_new.
  - intros Hkeep.
    assert (Hsame : mem (signAndFormat t p h) !! p = Some (CBytes buf)).
    { rewrite signAndFormat_mem, Hkeep, Hm, lookup_old by exact Hlt. exact Hp. }
    split; [exact Hsame|].
    intros t'. apply signAndFormat_ret_indep.
    unfold read_bytes. rewrite Hsame, Hp. reflexivity.
Qed.

End WithLibrary.

(** What is erased by the call with the RSA key from a loader. *)
Lemma erasure_after_signing_witness :
  Sample.a_heap !! Sample.rsa_pem = Some (CBytes (Bytes.of_string "-RSA KEY"))
  /\ mem Sample.rsa_run !! Sample.rsa_pem = Some (CBytes (replicate 8 x00))
  /\ exists k, key Sample.rsa_run = Some k
               /\ all_zero (mem Sample.rsa_run) (reset_cells k).
Proof.
  split; [reflexivity|].
  destruct (erasure_after_signing (H := Sample.lib) (Sample.a_token true)
              Sample.rsa_pem Sample.a_heap (Bytes.of_string "-RSA KEY") eq_refl)
    as (Hreset & _ & Hpem).
  split; [exact (Hpem eq_refl)|].
  destruct (Hreset _ eq_refl) as (k & Hk & _ & Hz).
  exists k. split; assumption.
Defined.

(** C1, at two failing inputs.  The call with the RSA key from a loader
    signs and returns a token.  Afterwards the integers the parser created
    still hold the whole private key: the code has assigned new zero
    integers to the fields [D] and [N] of the key object and has written
    into none of the old ones, and the primes and CRT values of the key
    object are not assigned at all.  The call with the RSA key too short
    to sign with returns the signer's error before the assignments: there
    the key object itself still holds every integer of the key. *)
Theorem key_numbers_survive :
  is_ok (ret Sample.rsa_run) = true
  /\ option_map (key_values (mem Sample.rsa_run)) (parsed Sample.rsa_run)
     = Some (ParsedRSA Sample.an_rsa_key)
  /\ option_map (key_values (mem Sample.rsa_run)) (key Sample.rsa_run)
     = Some (ParsedRSA {| rsaN := 0; rsaE := 17; rsaD := 0;
                          rsaPrimes := [61; 53];
                          rsaDp := 53; rsaDq := 49; rsaQinv := 38 |})
  /\ match parsed Sample.rsa_run, key Sample.rsa_run with
     | Some (KeyRSA old), Some (KeyRSA new) =>
         mem Sample.rsa_run !! rsa_D old = Some (CInt 413)
         /\ mem Sample.rsa_run !! rsa_N old = Some (CInt 3233)
         /\ mem Sample.rsa_run !! rsa_D new = Some (CInt 0)
         /\ mem Sample.rsa_run !! rsa_N new = Some (CInt 0)
         /\ rsa_D new <> rsa_D old
         /\ rsa_N new <> rsa_N old
         /\ rsa_Primes new = rsa_Primes old
         /\ rsa_Dp new = rsa_Dp old
         /\ rsa_Dq new = rsa_Dq old
         /\ rsa_Qinv new = rsa_Qinv old
     | _, _ => False
     end
  /\ ~ erased_in_place Sample.rsa_run
  /\ ~ key_reads_zero Sample.rsa_run
  /\ ret Sample.short_rsa_run = Err ErrSignRSA
  /\ key Sample.short_rsa_run = parsed Sample.short_rsa_run
  /\ option_map (key_values (mem Sample.short_rsa_run))
       (key Sample.short_rsa_run)
     = Some (ParsedRSA Sample.a_short_rsa_key)
  /\ ~ key_reads_zero Sample.short_rsa_run.
Proof.
  split; [reflexivity|].
  split; [vm_compute; reflexivity|].
  split; [vm_compute; reflexivity|].
  split; [vm_compute; repeat split; discriminate|].
  split; [rewrite erased_in_placeb_spec; vm_compute; discriminate|].
  split; [rewrite key_reads_zerob_spec; vm_compute; discriminate|].
  split; [vm_compute; reflexivity|].
  split; [vm_compute; reflexivity|].
  split; [vm_compute; reflexivity|].
  rewrite key_reads_zerob_spec. vm_compute. discriminate.
Qed.

(** The early return on a signing error comes before the assignments to
    the key: the call with the short RSA key fails in the signer and leaves
    every integer of the key as the parser created it. *)
Example signing_error_keeps_key :
  ret Sample.short_rsa_run = Err ErrSignRSA
  /\ key Sample.short_rsa_run = parsed Sample.short_rsa_run
  /\ option_map (rsa_values (mem Sample.short_rsa_run))
       (match key Sample.short_rsa_run with
        | Some (KeyRSA k) => Some k
        | _ => None
        end) = Some Sample.a_short_rsa_key.
Proof. vm_compute. repeat split. Qed.

(** C2 on six buffers: bytes that are no PEM block, a block that no
    parser accepts, an EC key, a PKCS#1 RSA key, and PKCS#8 structures
    around an EC key and around an RSA key. *)
Lemma key_type_detection_witness :
  ret Sample.not_pem_run = Err ErrNotPEM
  /\ ret Sample2.unknown_run = Err ErrDeduceKeyType
  /\ (Alg (Header (tok Sample.ec_run)) = es256
      /\ ret Sample.ec_run = Ok Sample.ec_token_text)
  /\ (Alg (Header (tok Sample.rsa_run)) = rs256
      /\ is_ok (ret Sample.rsa_run) = true)
  /\ (Alg (Header (tok Sample2.pkcs8_ec_run)) = es256
      /\ is_ok (ret Sample2.pkcs8_ec_run) = true)
  /\ (Alg (Header (tok Sample2.pkcs8_rsa_run)) = rs256
      /\ is_ok (ret Sample2.pkcs8_rsa_run) = true).
Proof.
  split.
  { exact (proj1 (key_type_detection (H := Sample.lib) (Sample.a_token true)
                    Sample.not_pem Sample.a_heap) eq_refl). }
  split.
  { destruct (key_type_detection (H := Sample.lib) (Sample.a_token false)
                Sample2.unknown_pem Sample2.more_keys) as (_ & Hder & _).
    destruct (Hder (Bytes.of_string "DSA KEY") eq_refl) as (Hnone & _).
    exact (Hnone eq_refl eq_refl eq_refl). }
  split.
  { destruct (key_type_detection (H := Sample.lib) (Sample.a_token false)
                Sample.ec_pem Sample.a_heap) as (_ & Hder & _).
    destruct (Hder (Bytes.of_string "EC KEY") eq_refl) as (_ & Hec & _).
    edestruct (Hec Sample.an_ec_key) as [Halg Hret];
      [left; reflexivity | reflexivity | reflexivity |].
    split; [exact Halg | exact Hret]. }
  split.
  { destruct (key_type_detection (H := Sample.lib) (Sample.a_token true)
                Sample.rsa_pem Sample.a_heap) as (_ & Hder & _).
    destruct (Hder (Bytes.of_string "RSA KEY") eq_refl) as (_ & _ & Hrsa & _).
    edestruct (Hrsa Sample.an_rsa_key) as [Halg Hret];
      [left; split; reflexivity | reflexivity | reflexivity |].
    split; [exact Halg|].
    change (is_ok (ret (signAndFormat (H := Sample.lib) (Sample.a_token true)
                          Sample.rsa_pem Sample.a_heap)) = true).
    rewrite Hret. reflexivity. }
  split.
  { destruct (key_type_detection (H := Sample.lib) (Sample.a_token false)
                Sample2.pkcs8_ec_pem Sample2.more_keys) as (_ & Hder & _).
    destruct (Hder (Bytes.of_string "8EC KEY") eq_refl) as (_ & Hec & _).
    edestruct (Hec Sample.an_ec_key) as [Halg Hret];
      [right; repeat split; reflexivity | reflexivity | reflexivity |].
    split; [exact Halg|].
    change (is_ok (ret (signAndFormat (H := Sample.lib) (Sample.a_token false)
                          Sample2.pkcs8_ec_pem Sample2.more_keys)) = true).
    rewrite Hret. reflexivity. }
  destruct (key_type_detection (H := Sample.lib) (Sample.a_token false)
              Sample2.pkcs8_rsa_pem Sample2.more_keys) as (_ & Hder & _).
  destruct (Hder (Bytes.of_string "8RSA KEY") eq_refl) as (_ & _ & Hrsa & _).
  edestruct (Hrsa Sample.an_rsa_key) as [Halg Hret];
    [right; repeat split; reflexivity | reflexivity | reflexivity |].
  split; [exact Halg|].
  change (is_ok (ret (signAndFormat (H := Sample.lib) (Sample.a_token false)
                        Sample2.pkcs8_rsa_pem Sample2.more_keys)) = true).
  rewrite Hret. reflexivity.
Defined.

(** C6 on the token signed with the EC key. *)
Lemma compact_token_three_segments_witness :
  ret Sample.ec_run = Ok Sample.ec_token_text
  /\ length (Strings.Split Sample.ec_token_text) = 3%nat.
Proof.
  assert (Hok : ret Sample.ec_run = Ok Sample.ec_token_text)
    by (vm_compute; reflexivity).
  split; [exact Hok|].
  destruct (compact_token_three_segments (H := Sample.lib)
              (Sample.a_token false) Sample.ec_pem Sample.a_heap
              Sample.ec_token_text Hok)
    as (hj & pj & sg & _ & _ & _ & Hsplit & _).
  rewrite Hsplit. reflexivity.
Defined.

(** C10 on the call with the stored EC key. *)
Lemma block_erased_key_buffer_kept_witness :
  Sample.a_heap !! Sample.ec_pem = Some (CBytes (Bytes.of_string "-EC KEY"))
  /\ Sample.decode_pem (Bytes.of_string "-EC KEY")
     = Some (Bytes.of_string "EC KEY")
  /\ mem Sample.ec_run !! length Sample.a_heap = Some (CBytes (replicate 6 x00))
  /\ mem Sample.ec_run !! Sample.ec_pem
     = Some (CBytes (Bytes.of_string "-EC KEY")).
Proof.
  split; [reflexivity|]. split; [reflexivity|].
  pose proof (block_erased_key_buffer_kept (H := Sample.lib)
                (Sample.a_token false) Sample.ec_pem Sample.a_heap
                (Bytes.of_string "-EC KEY") (Bytes.of_string "EC KEY")
                eq_refl eq_refl) as (_ & _ & Hblock & Hkeep).
  split; [exact Hblock|].
  exact (proj1 (Hkeep eq_refl)).
Defined.

End SigningClaims.

(* ===================================================================== *)
(** * Token construction: the lifetime *)
(* ===================================================================== *)

Module TimeFacts.
Import Time.

Lemma wrap64_small (z : Z) : - 2 ^ 63 <= z < 2 ^ 63 -> wrap64 z = z.
Proof. intros Hz. unfold wrap64. rewrite Z.mod_small; lia. Qed.

(** Away from the ends of the [int64] range, [addSec] adds. *)
Lemma addSec_ext (t : Time) (d : Z) :
  0 <= ext t < 2 ^ 62 -> 0 <= d < 2 ^ 62 ->
  ext (addSec t d) = ext t + d.
Proof.
  intros Ht Hd. unfold addSec.
  rewrite wrap64_small by lia.
  destruct (Z.ltb_spec (ext t) (ext t + d)), (Z.ltb_spec 0 d);
    cbn [Bool.eqb ext]; lia.
Qed.

(** The carry of the nanoseconds into the seconds. *)
Lemma Add_ext (t : Time) (d : Duration) :
  valid t -> 0 <= d <= max_int64 ->
  ext (Add t d)
  = ext t + d / Second
    + (if Second <=? nsec t + d mod Second then 1 else 0).
Proof.
  intros [Hext Hns] Hd. unfold max_int64 in Hd. unfold Add.
  change 1000000000 with Second.
  rewrite Z.quot_div_nonneg, Z.rem_mod_nonneg by (unfold Second; lia).
  assert (Hq : 0 <= d / Second < 2 ^ 34).
  { unfold Second. split; [apply Z.div_pos; lia|].
    apply Z.div_lt_upper_bound; lia. }
  assert (Hm : 0 <= d mod Second < Second)
    by (apply Z.mod_pos_bound; reflexivity).
  destruct (Z.leb_spec Second (nsec t + d mod Second)) as [Hc|Hc].
  - rewrite addSec_ext by (cbn [ext]; lia). cbn [ext]. lia.
  - destruct (Z.ltb_spec (nsec t + d mod Second) 0) as [Hneg|_]; [lia|].
    rewrite addSec_ext by (cbn [ext]; lia). cbn [ext]. lia.
Qed.

Lemma Unix_ext (t : Time) :
  0 <= ext t < 2 ^ 63 -> Unix t = ext t - unixToInternal.
Proof.
  intros Ht. unfold Unix, internalToUnix.
  rewrite wrap64_small; unfold unixToInternal; lia.
Qed.

(** Seconds between a clock reading and the reading [d] later. *)
Lemma Unix_Add (t : Time) (d : Duration) :
  valid t -> 0 <= d <= max_int64 ->
  Unix (Add t d) - Unix t
  = d / Second + (if Second <=? nsec t + d mod Second then 1 else 0).
Proof.
  intros Hv Hd. pose proof (Add_ext t d Hv Hd) as He.
  destruct Hv as [Hext Hns]. unfold max_int64 in Hd.
  assert (Hq : 0 <= d / Second < 2 ^ 34).
  { unfold Second. split; [apply Z.div_pos; lia|].
    apply Z.div_lt_upper_bound; lia. }
  rewrite (Unix_ext t) by lia.
  rewrite Unix_ext; rewrite He; destruct (Second <=? _); lia.
Qed.

End TimeFacts.

Module TokenClaims.
Import Jwt.

Section WithLibrary.
Context `{GoLib}.

(** C7 (amended).  A token built by [newToken] has [Iat] equal to the unix
    second of the build time and [Exp] to the unix second of the build
    time plus [ttl]; for a [ttl >= 0] that is a whole number of seconds
    their difference is [ttl] exactly, and for any other [ttl >= 0] it is
    [ttl] rounded down to whole seconds, or one second more. *)
Theorem token_lifetime (keyID uri : string) (body : list byte)
    (ttl : Time.Duration) (clean : bool) (t : token) :
  Time.valid time_Now ->
  0 <= ttl <= Time.max_int64 ->
  newToken keyID uri body ttl clean = Ok t ->
  Iat (Payload t) = Time.Unix time_Now
  /\ Exp (Payload t) = Time.Unix (Time.Add time_Now ttl)
  /\ (ttl mod Time.Second = 0 ->
      (Exp (Payload t) - Iat (Payload t)) * Time.Second = ttl)
  /\ ttl / Time.Second <= Exp (Payload t) - Iat (Payload t)
     <= ttl / Time.Second + 1.
Proof.
  intros Hv Httl Hnew. unfold newToken in Hnew.
  destruct (rand_Read 20) as [nonce|]; [|discriminate].
  injection Hnew as <-. cbn [Payload Iat Exp].
  split; [reflexivity|]. split; [reflexivity|].
  rewrite (TimeFacts.Unix_Add _ _ Hv Httl).
  destruct Hv as [_ Hns].
  split.
  - intros Hwhole. rewrite Hwhole, Z.add_0_r.
    destruct (Z.leb_spec Time.Second (Time.nsec time_Now)) as [Hc|_];
      [unfold Time.Second in Hc; lia|].
    pose proof (Z.div_mod ttl Time.Second) as Hdm.
    unfold Time.Second in *. lia.
  - destruct (Time.Second <=? _); lia.
Qed.

End WithLibrary.

(** The amended C7 on the token of the signing tests, built with
    [time.Hour]. *)
Lemma token_lifetime_witness :
  Time.valid Sample.a_time
  /\ 0 <= Time.Hour <= Time.max_int64
  /\ Exp (Payload (Sample.a_token false))
     - Iat (Payload (Sample.a_token false)) = 3600.
Proof.
  assert (Hv : Time.valid Sample.a_time) by (vm_compute; intuition discriminate).
  assert (Hh : 0 <= Time.Hour <= Time.max_int64)
    by (vm_compute; intuition discriminate).
  split; [exact Hv|]. split; [exact Hh|].
  pose proof (token_lifetime (H := Sample.lib) "test-key-id" "/test"
                (Bytes.of_string "payload") Time.Hour false
                (Sample.a_token false) Hv Hh eq_refl) as (_ & _ & Hexact & _).
  specialize (Hexact eq_refl). vm_compute in Hexact |- *. reflexivity.
Defined.

(** C7, as stated, fails.  Built three quarters of a second into a second
    with a [ttl] of one and a half seconds, a token has [Exp - Iat = 2]:
    two seconds, which is neither one and a half seconds nor one and a
    half seconds rounded down. *)
Lemma lifetime_not_exact :
  exists t,
    newToken (H := Sample.lib) "k" "/query" [] (1500 * Time.Millisecond) false
    = Ok t
    /\ Exp (Payload t) - Iat (Payload t) = 2
    /\ (Exp (Payload t) - Iat (Payload t)) * Time.Second
       <> 1500 * Time.Millisecond
    /\ Exp (Payload t) - Iat (Payload t)
       <> 1500 * Time.Millisecond / Time.Second.
Proof.
  eexists. split; [reflexivity|]. split; [reflexivity|].
  split; vm_compute; discriminate.
Qed.

End TokenClaims.

(* ===================================================================== *)
(** * The client: defaults and stored credentials *)
(* ===================================================================== *)

Module ClientClaims.
Import Wallet.

(** [SetCredentials] writes to the credential slot only. *)
Lemma SetCredentials_options (c : Client) (k : string) (p : Heap.loc) :
  options (fst (SetCredentials c k p)) = options c.
Proof.
  unfold SetCredentials.
  destruct (CredentialsLoaderFunc (options c)); reflexivity.
Qed.

(** With a loader configured, [SetCredentials] changes nothing. *)
Lemma SetCredentials_ignored (c : Client) (load : CredentialsLoader)
    (k : string) (p : Heap.loc) :
  CredentialsLoaderFunc (options c) = Some load ->
  fst (SetCredentials c k p) = c.
Proof. intros Hl. unfold SetCredentials. rewrite Hl. reflexivity. Qed.

Lemma New_retry_options (o : Options) (rest : list (option Options))
    (c : Client) :
  New (Some o :: rest) = Some c ->
  MaxReadRetry (options c)
  = (if MaxReadRetry o <=? 0 then 5 else MaxReadRetry o)
  /\ RetryInterval (options c)
     = (if RetryInterval o <=? 0 then 50 * Time.Millisecond
        else RetryInterval o).
Proof.
  unfold New. intros [= <-]. cbn [options].
  destruct o as [l hc m r d].
  assert (Hsimpl : forall o' : Options,
    MaxReadRetry o' = m -> RetryInterval o' = r ->
    let o1 := if MaxReadRetry o' <=? 0
              then set_MaxReadRetry o' (MaxReadRetry defaultOptions) else o' in
    let o2 := if RetryInterval o1 <=? 0
              then set_RetryInterval o1 (RetryInterval defaultOptions) else o1 in
    MaxReadRetry o2 = (if m <=? 0 then 5 else m)
    /\ RetryInterval o2 = (if r <=? 0 then 50 * Time.Millisecond else r)).
  { intros o' Hm Hr. cbv zeta. rewrite Hm.
    destruct (m <=? 0);
      [replace (RetryInterval (set_MaxReadRetry o' _)) with r by (symmetry; exact Hr)
      | rewrite Hr];
      destruct (r <=? 0); cbn; auto. }
  cbn [HTTPClient MaxReadRetry RetryInterval].
  destruct hc as [hc|]; cbn [HTTPClient set_HTTPClient defaultOptions].
  - destruct (Timeout hc <=? 0); apply Hsimpl; reflexivity.
  - cbn [Timeout]. change (10 * Time.Second <=? 0) with false. cbv iota.
    apply Hsimpl; reflexivity.
Qed.

(** C9.  After [New] returns, [MaxReadRetry] is 5 when no options were
    given or the value given was not positive, and [RetryInterval] is 50
    milliseconds when no options were given or the value given was not
    positive; a positive value is kept.  Both are positive, and
    [SetCredentials] does not change them. *)
Theorem retry_defaults (opts : list (option Options)) (c : Client) :
  New opts = Some c ->
  MaxReadRetry (options c)
  = match opts with
    | Some o :: _ => if MaxReadRetry o <=? 0 then 5 else MaxReadRetry o
    | _ => 5
    end
  /\ RetryInterval (options c)
     = match opts with
       | Some o :: _ =>
           if RetryInterval o <=? 0 then 50 * Time.Millisecond
           else RetryInterval o
       | _ => 50 * Time.Millisecond
       end
  /\ 0 < MaxReadRetry (options c)
  /\ 0 < RetryInterval (options c)
  /\ forall k p, options (fst (SetCredentials c k p)) = options c.
Proof.
  intros Hnew.
  assert (Hvals :
    MaxReadRetry (options c)
    = match opts with
      | Some o :: _ => if MaxReadRetry o <=? 0 then 5 else MaxReadRetry o
      | _ => 5
      end
    /\ RetryInterval (options c)
       = match opts with
         | Some o :: _ =>
             if RetryInterval o <=? 0 then 50 * Time.Millisecond
             else RetryInterval o
         | _ => 50 * Time.Millisecond
         end).
  { destruct opts as [|[o|] rest].
    - injection Hnew as <-. split; reflexivity.
    - apply (New_retry_options o rest c Hnew).
    - discriminate Hnew. }
  destruct Hvals as [Hm Hr].
  split; [exact Hm|]. split; [exact Hr|].
  split; [|split; [|intros k p; apply SetCredentials_options]].
  - rewrite Hm. destruct opts as [|[o|] rest]; try reflexivity.
    destruct (Z.leb_spec (MaxReadRetry o) 0); lia.
  - rewrite Hr. destruct opts as [|[o|] rest]; try reflexivity.
    destruct (Z.leb_spec (RetryInterval o) 0); [reflexivity | lia].
Qed.

(** C9 on options that leave both values unset. *)
Lemma retry_defaults_witness :
  exists c,
    New [Some Sample.no_options] = Some c
    /\ MaxReadRetry (options c) = 5
    /\ RetryInterval (options c) = 50 * Time.Millisecond.
Proof.
  eexists. split; [reflexivity|].
  pose proof (retry_defaults [Some Sample.no_options] _ eq_refl)
    as (Hm & Hr & _).
  split; [exact Hm | exact Hr].
Defined.

End ClientClaims.

(* ===================================================================== *)
(** * The dispatcher: retries, rate limits, credentials *)
(* ===================================================================== *)

Module DispatcherFacts.
Import Wallet Dispatcher.

Lemma attempts_of_send (n : nat) (cr : resolved) (tr : list event) :
  attempts_of (Send n cr :: tr) = S (attempts_of tr).
Proof. reflexivity. Qed.

Lemma attempts_of_nil : attempts_of [] = 0%nat.
Proof. reflexivity. Qed.

Lemma attempts_of_wait (d : Time.Duration) (tr : list event) :
  attempts_of (Wait d :: tr) = attempts_of tr.
Proof. reflexivity. Qed.

Section Calls.
Variable mint : nat -> resolved -> option Jwt.error.
Variable policy : Policy.
Variable c : Client.



Lemma query_from_success (code ra : Z) (rest : list Response)
    (a n : nat) (cr : resolved) :
  resolve c n = inl cr -> mint n cr = None -> classify code = Is2xx ->
  query_from mint policy c (Status code ra :: rest) a n
  = ([Send n cr], Succeeded).
Proof.
  intros Hres Hmint Hok. cbn [query_from]. rewrite Hres, Hmint, Hok.
  reflexivity.
Qed.

Lemma query_from_rate_limited (code ra : Z) (rest : list Response)
    (a n : nat) (cr : resolved) :
  resolve c n = inl cr -> mint n cr = None -> classify code = Is429 ->
  query_from mint policy c (Status code ra :: rest) a n
  = let a' := if rate_limit_counts policy then S a else a in
    (Send n cr :: Wait (ra * Time.Second)
       :: fst (query_from mint policy c rest a' (S n)),
     snd (query_from mint policy c rest a' (S n))).
Proof.
  intros Hres Hmint Hrl. cbn [query_from]. rewrite Hres, Hmint, Hrl.
  cbv zeta. destruct (query_from _ _ _ rest _ _); reflexivity.
Qed.



(** Every request of a query carries the credentials resolved for it. *)
Lemma query_sends_resolved (responses : list Response) :
  forall (a n m : nat) (cr : resolved),
  In (Send m cr) (fst (query_from mint policy c responses a n)) ->
  resolve c m = inl cr.
Proof.
  induction responses as [|r rest IH]; intros a n m cr; cbn [query_from].
  - destruct (resolve c n) as [cr0|e]; [|intros []].
    destruct (mint n cr0); intros [].
  - destruct (resolve c n) as [cr0|e] eqn:Hres; [|intros []].
    destruct (mint n cr0); [intros []|].
    assert (Hone : In (Send m cr) [Send n cr0] -> resolve c m = inl cr).
    { intros [[= <- <-]|[]]. exact Hres. }
    assert (Hstep : forall d a',
      In (Send m cr) (Send n cr0 :: Wait d
                        :: fst (query_from mint policy c rest a' (S n))) ->
      resolve c m = inl cr).
    { intros d a' [[= <- <-]|[Hw|Hin]];
        [exact Hres | discriminate Hw | exact (IH _ _ _ _ Hin)]. }
    destruct r as [|code ra].
    + destruct (_ <=? _); [|exact Hone].
      specialize (Hstep (RetryInterval (options c)) (S a)).
      destruct (query_from _ _ _ rest _ _). exact Hstep.
    + destruct (classify code); try exact Hone.
      * specialize (Hstep (ra * Time.Second)
                      (if rate_limit_counts policy then S a else a)).
        destruct (query_from _ _ _ rest _ _). exact Hstep.
      * destruct (_ <=? _); [|exact Hone].
        specialize (Hstep (RetryInterval (options c)) (S a)).
        destruct (query_from _ _ _ rest _ _). exact Hstep.
Qed.

(** Every request of a command carries the credentials resolved for it. *)
Lemma command_sends_resolved (responses : list Response) :
  forall (n m : nat) (cr : resolved),
  In (Send m cr) (fst (command_from mint policy c responses n)) ->
  resolve c m = inl cr.
Proof.
  induction responses as [|r rest IH]; intros n m cr; cbn [command_from].
  - destruct (resolve c n) as [cr0|e]; [|intros []].
    destruct (mint n cr0); intros [].
  - destruct (resolve c n) as [cr0|e] eqn:Hres; [|intros []].
    destruct (mint n cr0); [intros []|].
    assert (Hone : In (Send m cr) [Send n cr0] -> resolve c m = inl cr).
    { intros [[= <- <-]|[]]. exact Hres. }
    destruct r as [|code ra]; [exact Hone|].
    destruct (classify code); try exact Hone.
    destruct (command_retries_rate_limit policy); [|exact Hone].
    specialize (IH (S n) m cr).
    destruct (command_from _ _ _ rest _).
    intros [[= <- <-]|[Hw|Hin]];
      [exact Hres | discriminate Hw | exact (IH Hin)].
Qed.

(** A server error that a command receives ends the call. *)
Lemma command_from_server_error (responses : list Response) :
  forall (n i : nat) (code ra : Z),
  responses !! i = Some (Status code ra) ->
  classify code = Is5xx ->
  (i < attempts_of (fst (command_from mint policy c responses n)))%nat ->
  attempts_of (fst (command_from mint policy c responses n)) = S i
  /\ snd (command_from mint policy c responses n) = Failed (ServerError code).
Proof.
  induction responses as [|r rest IH]; intros n i code ra Hi H5 Hlt;
    [discriminate Hi|].
  cbn [command_from] in Hlt |- *.
  destruct (resolve c n) as [cr|e];
    [|cbn [fst] in Hlt; rewrite attempts_of_nil in Hlt; lia].
  destruct (mint n cr);
    [cbn [fst] in Hlt; rewrite attempts_of_nil in Hlt; lia|].
  assert (Hone : forall j, (S j < attempts_of [Send n cr])%nat -> False).
  { intros j. rewrite attempts_of_send, attempts_of_nil. lia. }
  destruct i as [|i].
  - cbn in Hi. injection Hi as ->. rewrite H5. split; reflexivity.
  - cbn in Hi.
    destruct r as [|code0 ra0]; [destruct (Hone _ Hlt)|].
    destruct (classify code0); try (destruct (Hone _ Hlt)).
    destruct (command_retries_rate_limit policy); [|destruct (Hone _ Hlt)].
    specialize (IH (S n) i code ra Hi H5).
    destruct (command_from _ _ _ rest _) as [tr res].
    cbn [fst snd] in *.
    rewrite attempts_of_send, attempts_of_wait in Hlt |- *.
    destruct (IH ltac:(lia)) as [-> ->]. split; reflexivity.
Qed.

End Calls.

End DispatcherFacts.

Module DispatchClaims.
Import Wallet Dispatcher DispatcherFacts.



(** C4.  A command that receives a 5xx response makes no further attempt
    and fails with that server error, whatever [MaxReadRetry] is: when the
    first response is a 5xx there is exactly one request and no wait. *)
Theorem command_never_retries_server_error
    (mint : nat -> resolved -> option Jwt.error) (policy : Policy)
    (c : Client) :
  always_signs mint c ->
  (forall code ra rest,
     classify code = Is5xx ->
     snd (command mint policy c (Status code ra :: rest))
     = Failed (ServerError code)
     /\ attempts_of (fst (command mint policy c (Status code ra :: rest)))
        = 1%nat
     /\ waits_of (fst (command mint policy c (Status code ra :: rest))) = [])
  /\ (forall responses i code ra,
     responses !! i = Some (Status code ra) ->
     classify code = Is5xx ->
     (i < attempts_of (fst (command mint policy c responses)))%nat ->
     attempts_of (fst (command mint policy c responses)) = S i
     /\ snd (command mint policy c responses) = Failed (ServerError code)).
Proof.
  intros Hsigns. split.
  - intros code ra rest H5. unfold command. cbn [command_from].
    destruct (Hsigns 1%nat) as (cr & -> & ->). rewrite H5.
    repeat split; reflexivity.
  - intros responses i code ra. unfold command.
    apply command_from_server_error.
Qed.

(** C4 on the client and the responses of [TestCommand_NoRetryOn500]. *)
Lemma command_never_retries_server_error_witness :
  always_signs Sample.signs (Sample.test_client Sample.retry_options)
  /\ command Sample.signs Sample.counting
       (Sample.test_client Sample.retry_options) [Status 500 0; Status 200 0]
     = ([Send 1 {| r_keyID := "key-1"; r_key := Sample.rsa_pem;
                   r_transient := false |}],
        Failed (ServerError 500))
  /\ attempts_of (fst (command Sample.signs Sample.counting
                         (Sample.test_client Sample.retry_options)
                         [Status 500 0; Status 200 0]))
     = 1%nat.
Proof.
  assert (Hsigns : always_signs Sample.signs
                     (Sample.test_client Sample.retry_options)).
  { intros n. eexists. split; reflexivity. }
  split; [exact Hsigns|]. split; [reflexivity|].
  destruct (command_never_retries_server_error Sample.signs Sample.counting
              (Sample.test_client Sample.retry_options) Hsigns)
    as (Hfirst & _).
  exact (proj1 (proj2 (Hfirst 500 0 [Status 200 0] eq_refl))).
Defined.

(** C8.  On a client with a credentials loader, [SetCredentials] changes
    nothing, so the stored slot stays as it was; the resolver returns what
    the loader returns, marked transient; and every request of a query or
    of a command carries the key identifier and the key buffer the loader
    returned for it. *)
Theorem loader_has_priority (c : Client) (load : CredentialsLoader) :
  CredentialsLoaderFunc (options c) = Some load ->
  (forall k p, fst (SetCredentials c k p) = c)
  /\ (forall n,
      resolve c n
      = match load n with
        | (k, p, None) =>
            inl {| r_keyID := k; r_key := p; r_transient := true |}
        | (_, _, Some msg) => inr (LoaderError msg)
        end)
  /\ (forall mint policy responses k p m cr,
      In (Send m cr)
         (fst (query mint policy (fst (SetCredentials c k p)) responses))
      \/ In (Send m cr)
           (fst (command mint policy (fst (SetCredentials c k p)) responses)) ->
      load m = (r_keyID cr, r_key cr, None) /\ r_transient cr = true).
Proof.
  intros Hl.
  assert (Hres : forall n,
      resolve c n
      = match load n with
        | (k, p, None) =>
            inl {| r_keyID := k; r_key := p; r_transient := true |}
        | (_, _, Some msg) => inr (LoaderError msg)
        end).
  { intros n. unfold resolve. rewrite Hl. reflexivity. }
  split; [intros k p; exact (ClientClaims.SetCredentials_ignored c load k p Hl)|].
  split; [exact Hres|].
  intros mint policy responses k p m cr Hin.
  rewrite (ClientClaims.SetCredentials_ignored c load k p Hl) in Hin.
  assert (Hr : resolve c m = inl cr).
  { destruct Hin as [Hin|Hin].
    - exact (query_sends_resolved mint policy c responses _ _ _ _ Hin).
    - exact (command_sends_resolved mint policy c responses _ _ _ Hin). }
  rewrite Hres in Hr.
  destruct (load m) as [[k' p'] [msg|]]; [discriminate|].
  injection Hr as <-. split; reflexivity.
Qed.

(** C8 on the client of [TestCredentialsLoader_Priority]. *)
Lemma loader_has_priority_witness :
  CredentialsLoaderFunc (options (Sample.new_client Sample.loader_options))
  = Some Sample.ec_loader
  /\ fst (SetCredentials (Sample.new_client Sample.loader_options)
            "rsa-key-id" Sample.rsa_pem)
     = Sample.new_client Sample.loader_options
  /\ keyIDs_of (fst (query Sample.signs Sample.counting
                       (fst (SetCredentials
                               (Sample.new_client Sample.loader_options)
                               "rsa-key-id" Sample.rsa_pem))
                       [Status 200 0]))
     = ["ec-key-id"%string].
Proof.
  split; [reflexivity|]. split; [|reflexivity].
  exact (proj1 (loader_has_priority (Sample.new_client Sample.loader_options)
                  Sample.ec_loader eq_refl) "rsa-key-id"%string Sample.rsa_pem).
Defined.

(** A query that receives 429 waits for the seconds of [Retry-After] and
    tries again, under either reading of the budget: 429 with
    [Retry-After: 1] and then a 2xx make two requests and one wait of one
    second. *)
Lemma rate_limited_query_waits
    (mint : nat -> resolved -> option Jwt.error) (policy : Policy)
    (c : Client) (code ra : Z) (rest : list Response) :
  always_signs mint c ->
  classify code = Is2xx ->
  snd (query mint policy c (Status 429 1 :: Status code ra :: rest))
  = Succeeded
  /\ attempts_of (fst (query mint policy c
                         (Status 429 1 :: Status code ra :: rest))) = 2%nat
  /\ waits_of (fst (query mint policy c
                      (Status 429 1 :: Status code ra :: rest)))
     = [1 * Time.Second]
  /\ Time.Second
     <= waited (fst (query mint policy c
                       (Status 429 1 :: Status code ra :: rest))).
Proof.
  intros Hsigns Hok. unfold query.
  destruct (Hsigns 1%nat) as (cr1 & Hr1 & Hm1).
  destruct (Hsigns 2%nat) as (cr2 & Hr2 & Hm2).
  rewrite (query_from_rate_limited mint policy c 429 1 _ 1 1 cr1 Hr1 Hm1 eq_refl).
  cbv zeta.
  rewrite (query_from_success mint policy c code ra rest _ 2 cr2 Hr2 Hm2 Hok).
  repeat split; reflexivity.
Qed.

(** Whether a retry after 429 uses up a unit of [MaxReadRetry] decides the
    outcome of a call: with a budget of one retry, 429 then 500 then 200
    fails under one reading and succeeds under the other. *)
Example rate_limit_budget_readings :
  snd (query Sample.signs Sample.counting
         (Sample.test_client Sample.one_retry_options)
         [Status 429 1; Status 500 0; Status 200 0])
  = Failed (ServerError 500)
  /\ snd (query Sample.signs Sample.not_counting
            (Sample.test_client Sample.one_retry_options)
            [Status 429 1; Status 500 0; Status 200 0])
     = Succeeded.
Proof. split; reflexivity. Qed.

End DispatchClaims.

(* ===================================================================== *)
(** * The code on concrete inputs *)
(* ===================================================================== *)

Module Examples.
Import Jwt Wallet Dispatcher.

(** The test vectors of RFC 4648, without padding. *)
Example base64_foobar :
  map (fun s => Base64.EncodeToString (Bytes.of_string s))
    ["f"; "fo"; "foo"; "foob"; "fooba"; "foobar"]%string
  = ["Zg"; "Zm8"; "Zm9v"; "Zm9vYg"; "Zm9vYmE"; "Zm9vYmFy"]%string.
Proof. reflexivity. Qed.

(** The two characters in which the URL alphabet differs. *)
Example base64_url_characters :
  Base64.EncodeToString [xfb; xff; xbf] = "-_-_"%string.
Proof. reflexivity. Qed.

Example hex_of_bytes : Bytes.hex [x00; xff; x1a] = "00ff1a"%string.
Proof. reflexivity. Qed.

Example split_at_dots :
  Strings.Split "a.bc." = ["a"; "bc"; EmptyString]%string.
Proof. reflexivity. Qed.

(** [time.Hour] after the sample time. *)
Example an_hour_later :
  Time.Unix (Time.Add Sample.a_time Time.Hour) - Time.Unix Sample.a_time = 3600.
Proof. reflexivity. Qed.

(** The token of the signing tests before it is signed. *)
Example a_token_fields :
  Alg (Header (Sample.a_token false)) = EmptyString
  /\ Typ (Header (Sample.a_token false)) = "JWT"%string
  /\ Sub (Payload (Sample.a_token false)) = "wallet"%string
  /\ String.length (Nonce (Payload (Sample.a_token false))) = 40%nat.
Proof. repeat split. Qed.

(** [New()] and the defaults the first test checks. *)
Example new_without_options :
  New [] = Some {| options := defaultOptions; creds := None |}
  /\ MaxReadRetry defaultOptions = 5
  /\ option_map Timeout (HTTPClient defaultOptions) = Some (10 * Time.Second).
Proof. repeat split. Qed.

(** [New(nil)] dereferences a nil pointer. *)
Example new_with_nil : New [None] = None.
Proof. reflexivity. Qed.

(** A client without credentials: the call fails before any request. *)
Example credentials_missing :
  match New [] with
  | Some c =>
      query Sample.signs Sample.counting c [Status 200 0]
      = ([], Failed MissingCredentialsError)
  | None => False
  end
  /\ missing_credentials_message = "credentials are not set"%string.
Proof. split; reflexivity. Qed.

(** Without a loader, [SetCredentials] fills the slot. *)
Example stored_credentials_used :
  creds (Sample.test_client Sample.retry_options)
  = Some {| keyID := "key-1"; privateKeyPEM := Sample.rsa_pem |}.
Proof. reflexivity. Qed.

(** With a loader and [Debug], [SetCredentials] only writes to the log. *)
Example set_credentials_logged :
  snd (SetCredentials (Sample.new_client Sample.loader_options)
         "rsa-key-id" Sample.rsa_pem)
  = ["INFO: ignoring SetCredentials call as CredentialsLoaderFunc was set to the client."%string].
Proof. reflexivity. Qed.

(** Any other 4xx ends a query at once. *)
Example client_error_is_terminal :
  snd (query Sample.signs Sample.counting
         (Sample.test_client Sample.retry_options) [Status 404 0; Status 200 0])
  = Failed (ClientError 404).
Proof. reflexivity. Qed.

End Examples.

(* ===================================================================== *)
(** * Round trips of the encoders *)
(* ===================================================================== *)

Module CodecFacts.
Import Codec.

(** ** Hexadecimal *)

Lemma unhex_hex_cons (b : byte) (rest : list byte) :
  unhex (Bytes.hex (b :: rest))
  = match unhex (Bytes.hex rest) with
    | Some bs => Some (b :: bs)
    | None => None
    end.
Proof. destruct b; reflexivity. Qed.

(** Reading back what [%x] wrote gives the bytes. *)
Lemma unhex_hex (buf : list byte) : unhex (Bytes.hex buf) = Some buf.
Proof.
  induction buf as [|b buf IH]; [reflexivity|].
  rewrite unhex_hex_cons, IH. reflexivity.
Qed.

Lemma hex_injective (a b : list byte) : Bytes.hex a = Bytes.hex b -> a = b.
Proof.
  intros Heq. apply (f_equal unhex) in Heq.
  rewrite !unhex_hex in Heq. injection Heq as ->. reflexivity.
Qed.

Lemma hex_cons_digits (b : byte) (rest : list byte) :
  all_hex (Bytes.hex (b :: rest)) = all_hex (Bytes.hex rest).
Proof. destruct b; reflexivity. Qed.

Lemma hex_all_hex (buf : list byte) : all_hex (Bytes.hex buf) = true.
Proof.
  induction buf as [|b buf IH]; [reflexivity|].
  rewrite hex_cons_digits. exact IH.
Qed.

Lemma hex_length (buf : list byte) :
  String.length (Bytes.hex buf) = (2 * length buf)%nat.
Proof.
  induction buf as [|b buf IH]; [reflexivity|].
  cbn [Bytes.hex String.length length]. rewrite IH. lia.
Qed.

(** ** Base64 *)

Lemma dec_enc (v : N) : dec (Base64.enc v) = Some (N.land v 63).
Proof.
  unfold Base64.enc.
  assert (Hlt : (N.land v 63 < 64)%N).
  { change 63%N with (N.ones 6). rewrite N.land_ones.
    apply N.mod_upper_bound. discriminate. }
  remember (N.land v 63) as m eqn:Hm. clear Hm.
  replace m with (N.of_nat (N.to_nat m)) at 2 by lia.
  assert (Hk : (N.to_nat m < 64)%nat) by lia.
  remember (N.to_nat m) as k eqn:Heqk. clear Heqk Hlt.
  do 64 (destruct k as [|k]; [reflexivity|]).
  lia.
Qed.

(** Bits that do not overlap add up. *)
Lemma lor_shiftl_add (x y k : N) :
  (y < 2 ^ k)%N -> N.lor (N.shiftl x k) y = (x * 2 ^ k + y)%N.
Proof.
  intros Hy.
  assert (Hdisjoint : N.land (N.shiftl x k) y = 0%N).
  { apply N.bits_inj. intros n. rewrite N.land_spec, N.bits_0.
    destruct (N.lt_ge_cases n k) as [Hlt|Hge].
    - rewrite N.shiftl_spec_low by exact Hlt. reflexivity.
    - rewrite <- (N.mod_small y (2 ^ k)) by exact Hy.
      rewrite N.mod_pow2_bits_high by exact Hge. apply andb_false_r. }
  rewrite <- N.lxor_lor by exact Hdisjoint.
  rewrite <- N.add_nocarry_lxor by exact Hdisjoint.
  rewrite N.shiftl_mul_pow2. reflexivity.
Qed.

Lemma group_value (a b c : byte) :
  Base64.group a b c
  = (Byte.to_N a * 65536 + Byte.to_N b * 256 + Byte.to_N c)%N.
Proof.
  unfold Base64.group.
  pose proof (Byte.to_N_bounded b) as Hb. pose proof (Byte.to_N_bounded c) as Hc.
  rewrite (N.shiftl_mul_pow2 (Byte.to_N b)).
  rewrite lor_shiftl_add by (change (2 ^ 16)%N with 65536%N; change (2 ^ 8)%N with 256%N; lia).
  replace (Byte.to_N a * 2 ^ 16 + Byte.to_N b * 2 ^ 8)%N
    with (N.shiftl (Byte.to_N a * 256 + Byte.to_N b) 8)
    by (rewrite N.shiftl_mul_pow2; change (2 ^ 16)%N with 65536%N;
        change (2 ^ 8)%N with 256%N; lia).
  rewrite lor_shiftl_add by (change (2 ^ 8)%N with 256%N; lia).
  change (2 ^ 8)%N with 256%N. lia.
Qed.

Lemma quad_value (s1 s2 s3 s4 : N) :
  (s2 < 64)%N -> (s3 < 64)%N -> (s4 < 64)%N ->
  quad s1 s2 s3 s4 = (s1 * 262144 + s2 * 4096 + s3 * 64 + s4)%N.
Proof.
  intros H2 H3 H4. unfold quad.
  rewrite (N.shiftl_mul_pow2 s2), (N.shiftl_mul_pow2 s3).
  change (2 ^ 12)%N with 4096%N. change (2 ^ 6)%N with 64%N.
  rewrite lor_shiftl_add by (change (2 ^ 18)%N with 262144%N; lia).
  replace (s1 * 2 ^ 18 + s2 * 4096)%N with (N.shiftl (s1 * 64 + s2) 12)
    by (rewrite N.shiftl_mul_pow2; change (2 ^ 18)%N with 262144%N;
        change (2 ^ 12)%N with 4096%N; lia).
  rewrite lor_shiftl_add by (change (2 ^ 12)%N with 4096%N; lia).
  replace ((s1 * 64 + s2) * 2 ^ 12 + s3 * 64)%N
    with (N.shiftl ((s1 * 64 + s2) * 64 + s3) 6)
    by (rewrite N.shiftl_mul_pow2; change (2 ^ 12)%N with 4096%N;
        change (2 ^ 6)%N with 64%N; lia).
  rewrite lor_shiftl_add by (change (2 ^ 6)%N with 64%N; lia).
  change (2 ^ 6)%N with 64%N. lia.
Qed.

Lemma sextet (v k : N) : N.land (N.shiftr v k) 63 = ((v / 2 ^ k) mod 64)%N.
Proof.
  change 63%N with (N.ones 6). rewrite N.land_ones, N.shiftr_div_pow2.
  reflexivity.
Qed.

Lemma byte_of_to_N (n : N) (b : byte) : (n mod 256)%N = Byte.to_N b -> byte_of n = b.
Proof.
  intros Hn. unfold byte_of. change 255%N with (N.ones 8).
  rewrite N.land_ones. change (2 ^ 8)%N with 256%N.
  rewrite Hn, Byte.of_to_N. reflexivity.
Qed.

(** Four sextets of a 24-bit value give it back. *)
Lemma quad_sextets (v : N) :
  (v < 16777216)%N ->
  quad (N.land (N.shiftr v 18) 63) (N.land (N.shiftr v 12) 63)
       (N.land (N.shiftr v 6) 63) (N.land v 63) = v.
Proof.
  intros Hv. rewrite !sextet.
  change 63%N with (N.ones 6). rewrite N.land_ones.
  change (2 ^ 18)%N with 262144%N. change (2 ^ 12)%N with 4096%N.
  change (2 ^ 6)%N with 64%N.
  rewrite quad_value by (apply N.mod_upper_bound; discriminate).
  zify. Z.to_euclidean_division_equations. lia.
Qed.

Lemma group_bound (a b c : byte) : (Base64.group a b c < 16777216)%N.
Proof.
  rewrite group_value.
  pose proof (Byte.to_N_bounded a). pose proof (Byte.to_N_bounded b).
  pose proof (Byte.to_N_bounded c). lia.
Qed.

(** The three bytes of a group, read off its 24 bits. *)
Lemma group_bytes (a b c : byte) :
  byte_of (N.shiftr (Base64.group a b c) 16) = a
  /\ byte_of (N.shiftr (Base64.group a b c) 8) = b
  /\ byte_of (Base64.group a b c) = c.
Proof.
  pose proof (Byte.to_N_bounded a). pose proof (Byte.to_N_bounded b).
  pose proof (Byte.to_N_bounded c).
  repeat split; apply byte_of_to_N; rewrite ?N.shiftr_div_pow2, group_value;
    change (2 ^ 16)%N with 65536%N; change (2 ^ 8)%N with 256%N;
    zify; Z.to_euclidean_division_equations; lia.
Qed.

Lemma DecodeString_4 (c1 c2 c3 c4 : ascii) (rest : string) :
  DecodeString (String c1 (String c2 (String c3 (String c4 rest))))
  = match dec c1, dec c2, dec c3, dec c4, DecodeString rest with
    | Some s1, Some s2, Some s3, Some s4, Some bs =>
        Some (byte_of (N.shiftr (quad s1 s2 s3 s4) 16)
              :: byte_of (N.shiftr (quad s1 s2 s3 s4) 8)
              :: byte_of (quad s1 s2 s3 s4) :: bs)
    | _, _, _, _, _ => None
    end.
Proof. reflexivity. Qed.

Lemma decode_one (a : byte) :
  DecodeString (Base64.EncodeToString [a]) = Some [a].
Proof. destruct a; reflexivity. Qed.

Lemma decode_two (a b : byte) :
  DecodeString (Base64.EncodeToString [a; b]) = Some [a; b].
Proof.
  rewrite Base64Facts.EncodeToString_2. cbv zeta.
  set (v := N.lor (N.shiftl (Byte.to_N a) 16) (N.shiftl (Byte.to_N b) 8)).
  assert (Hv : v = (Byte.to_N a * 65536 + Byte.to_N b * 256)%N).
  { pose proof (group_value a b x00) as Hg. unfold Base64.group in Hg.
    change (Byte.to_N x00) with 0%N in Hg.
    rewrite N.lor_0_r, N.add_0_r in Hg. exact Hg. }
  cbn [DecodeString]. rewrite !dec_enc.
  pose proof (Byte.to_N_bounded a). pose proof (Byte.to_N_bounded b).
  assert (Hq : quad (N.land (N.shiftr v 18) 63) (N.land (N.shiftr v 12) 63)
                 (N.land (N.shiftr v 6) 63) 0 = v).
  { rewrite !sextet.
    change (2 ^ 18)%N with 262144%N. change (2 ^ 12)%N with 4096%N.
    change (2 ^ 6)%N with 64%N.
    rewrite quad_value by (try (apply N.mod_upper_bound; discriminate); lia).
    rewrite Hv. zify. Z.to_euclidean_division_equations. lia. }
  rewrite Hq. f_equal. f_equal; [|f_equal];
    apply byte_of_to_N; rewrite N.shiftr_div_pow2, Hv;
    change (2 ^ 16)%N with 65536%N; change (2 ^ 8)%N with 256%N;
    zify; Z.to_euclidean_division_equations; lia.
Qed.

Lemma decode_three (a b c : byte) (rest : list byte) :
  DecodeString (Base64.EncodeToString (a :: b :: c :: rest))
  = match DecodeString (Base64.EncodeToString rest) with
    | Some bs => Some (a :: b :: c :: bs)
    | None => None
    end.
Proof.
  rewrite Base64Facts.EncodeToString_3, DecodeString_4, !dec_enc.
  rewrite quad_sextets by apply group_bound.
  destruct (group_bytes a b c) as (-> & -> & ->). reflexivity.
Qed.

Lemma DecodeString_EncodeToString_upto (n : nat) : forall src : list byte,
  (length src <= n)%nat ->
  DecodeString (Base64.EncodeToString src) = Some src.
Proof.
  induction n as [|n IH]; intros src Hlen.
  - destruct src; [reflexivity | simpl in Hlen; lia].
  - destruct src as [|a [|b [|c rest]]].
    + reflexivity.
    + apply decode_one.
    + apply decode_two.
    + rewrite decode_three, IH by (simpl in Hlen; lia). reflexivity.
Qed.

(** Decoding an encoding gives the bytes back. *)
Lemma DecodeString_EncodeToString (src : list byte) :
  DecodeString (Base64.EncodeToString src) = Some src.
Proof. apply (DecodeString_EncodeToString_upto (length src)). lia. Qed.

Lemma EncodeToString_injective (a b : list byte) :
  Base64.EncodeToString a = Base64.EncodeToString b -> a = b.
Proof.
  intros Heq. apply (f_equal DecodeString) in Heq.
  rewrite !DecodeString_EncodeToString in Heq. injection Heq as ->.
  reflexivity.
Qed.

End CodecFacts.

(* ===================================================================== *)
(** * Token construction: nonce, body hash, negative lifetimes *)
(* ===================================================================== *)

Module TokenExtras.
Import Jwt.

(** [addSec] with a step back in time. *)
Lemma addSec_back (t : Time.Time) (d : Z) :
  2 ^ 34 <= Time.ext t < 2 ^ 62 -> - 2 ^ 34 <= d <= 0 ->
  Time.ext (Time.addSec t d) = Time.ext t + d.
Proof.
  intros Ht Hd. unfold Time.addSec.
  rewrite TimeFacts.wrap64_small by lia.
  destruct (Z.ltb_spec (Time.ext t) (Time.ext t + d)), (Z.ltb_spec 0 d);
    cbn [Bool.eqb Time.ext]; lia.
Qed.

(** Seconds between a clock reading and the reading [- d] earlier. *)
Lemma Unix_Add_back (t : Time.Time) (d : Time.Duration) :
  2 ^ 34 <= Time.ext t < 2 ^ 62 -> 0 <= Time.nsec t < 1000000000 ->
  0 < d <= Time.max_int64 ->
  Time.Unix (Time.Add t (- d)) - Time.Unix t
  = - (d / Time.Second)
    - (if Time.nsec t - d mod Time.Second <? 0 then 1 else 0).
Proof.
  intros Hext Hns Hd. unfold Time.max_int64 in Hd.
  assert (Hq : 0 <= d / Time.Second < 2 ^ 34).
  { unfold Time.Second. split; [apply Z.div_pos; lia|].
    apply Z.div_lt_upper_bound; lia. }
  assert (Hm : 0 <= d mod Time.Second < Time.Second)
    by (apply Z.mod_pos_bound; reflexivity).
  assert (Hadd : Time.ext (Time.Add t (- d))
                 = Time.ext t - d / Time.Second
                   - (if Time.nsec t - d mod Time.Second <? 0 then 1 else 0)).
  { unfold Time.Add. change 1000000000 with Time.Second.
    rewrite Z.quot_opp_l, Z.rem_opp_l by (unfold Time.Second; lia).
    rewrite Z.quot_div_nonneg, Z.rem_mod_nonneg by (unfold Time.Second; lia).
    replace (Time.nsec t + - (d mod Time.Second))
      with (Time.nsec t - d mod Time.Second) by lia.
    destruct (Z.leb_spec Time.Second (Time.nsec t - d mod Time.Second))
      as [Hc|_]; [unfold Time.Second in *; lia|].
    destruct (Z.ltb_spec (Time.nsec t - d mod Time.Second) 0);
      rewrite addSec_back by (cbn [Time.ext]; lia); cbn [Time.ext]; lia. }
  rewrite (TimeFacts.Unix_ext t) by lia.
  rewrite TimeFacts.Unix_ext; rewrite Hadd; destruct (_ <? 0); lia.
Qed.

Section WithLibrary.
Context `{GoLib}.

(** X1.  The [nonce] and [bodyHash] of a token are lower-case hexadecimal
    text, two digits a byte, that reads back as the bytes [rand.Read]
    returned and as the SHA-256 digest of the body. *)
Theorem nonce_and_body_hash_read_back (keyID uri : string) (body : list byte)
    (ttl : Time.Duration) (clean : bool) (t : token) :
  newToken keyID uri body ttl clean = Ok t ->
  exists nonce,
    rand_Read 20 = Some nonce
    /\ Codec.unhex (Nonce (Payload t)) = Some nonce
    /\ Codec.unhex (BodyHash (Payload t)) = Some (sha256_Sum256 body)
    /\ Codec.all_hex (Nonce (Payload t)) = true
    /\ Codec.all_hex (BodyHash (Payload t)) = true
    /\ String.length (Nonce (Payload t)) = (2 * length nonce)%nat
    /\ String.length (BodyHash (Payload t))
       = (2 * length (sha256_Sum256 body))%nat.
Proof.
  unfold newToken. destruct (rand_Read 20) as [nonce|]; [|discriminate].
  intros [= <-]. exists nonce. cbn [Payload Nonce BodyHash].
  rewrite !CodecFacts.unhex_hex, !CodecFacts.hex_all_hex,
    !CodecFacts.hex_length.
  repeat split; reflexivity.
Qed.

(** X2.  [newToken] does not reject a negative [ttl]: the token it builds
    expires no later than it is issued, by [-ttl] rounded down to whole
    seconds, or one second more. *)
Theorem negative_ttl_is_accepted (keyID uri : string) (body : list byte)
    (ttl : Time.Duration) (clean : bool) (nonce : list byte) :
  2 ^ 34 <= Time.ext time_Now < 2 ^ 62 ->
  0 <= Time.nsec time_Now < 1000000000 ->
  - Time.max_int64 <= ttl < 0 ->
  rand_Read 20 = Some nonce ->
  exists t,
    newToken keyID uri body ttl clean = Ok t
    /\ Exp (Payload t) <= Iat (Payload t)
    /\ - (- ttl / Time.Second) - 1
       <= Exp (Payload t) - Iat (Payload t)
       <= - (- ttl / Time.Second).
Proof.
  intros Hext Hns Httl Hrand. unfold newToken. rewrite Hrand.
  eexists. split; [reflexivity|]. cbn [Payload Exp Iat].
  replace ttl with (- (- ttl)) at 1 3 4 by lia.
  rewrite (Unix_Add_back time_Now (- ttl) Hext Hns ltac:(lia)).
  assert (Hq : 0 <= - ttl / Time.Second)
    by (apply Z.div_pos; [lia | reflexivity]).
  assert (Hdiff : forall a b, a - b <= 0 -> a <= b) by (intros; lia).
  split.
  - apply Hdiff. rewrite (Unix_Add_back time_Now (- ttl) Hext Hns ltac:(lia)).
    destruct (_ <? 0); lia.
  - destruct (_ <? 0); lia.
Qed.

End WithLibrary.

(** X3.  Two tokens built from different random bytes have different
    nonces, and two tokens built for bodies with different digests have
    different body hashes, whatever else they were built from. *)
Theorem tokens_differ (lib1 lib2 : GoLib)
    (k1 k2 u1 u2 : string) (body1 body2 : list byte)
    (ttl1 ttl2 : Time.Duration) (clean1 clean2 : bool) (t1 t2 : token) :
  newToken (H := lib1) k1 u1 body1 ttl1 clean1 = Ok t1 ->
  newToken (H := lib2) k2 u2 body2 ttl2 clean2 = Ok t2 ->
  (rand_Read (GoLib := lib1) 20 <> rand_Read (GoLib := lib2) 20 ->
   Nonce (Payload t1) <> Nonce (Payload t2))
  /\ (sha256_Sum256 (GoLib := lib1) body1 <> sha256_Sum256 (GoLib := lib2) body2 ->
      BodyHash (Payload t1) <> BodyHash (Payload t2)).
Proof.
  unfold newToken.
  destruct (rand_Read (GoLib := lib1) 20) as [n1|]; [|discriminate].
  destruct (rand_Read (GoLib := lib2) 20) as [n2|]; [|discriminate].
  intros [= <-] [= <-]. cbn [Payload Nonce BodyHash]. split.
  - intros Hne Heq. apply Hne. f_equal. exact (CodecFacts.hex_injective _ _ Heq).
  - intros Hne Heq. apply Hne. exact (CodecFacts.hex_injective _ _ Heq).
Qed.

End TokenExtras.

Module TokenExtrasWitnesses.
Import Jwt.

(** X1 on the token of the signing tests. *)
Lemma nonce_and_body_hash_read_back_witness :
  newToken (H := Sample.lib) "test-key-id" "/test" (Bytes.of_string "payload")
    Time.Hour false = Ok (Sample.a_token false)
  /\ Codec.unhex (Nonce (Payload (Sample.a_token false)))
     = Some (replicate 20 "*"%byte)
  /\ String.length (Nonce (Payload (Sample.a_token false))) = 40%nat.
Proof.
  split; [reflexivity|].
  destruct (TokenExtras.nonce_and_body_hash_read_back (H := Sample.lib)
              "test-key-id" "/test" (Bytes.of_string "payload") Time.Hour false
              (Sample.a_token false) eq_refl)
    as (nonce & Hrand & Hnonce & _ & _ & _ & Hlen & _).
  injection Hrand as <-. split; [exact Hnonce | exact Hlen].
Defined.

(** X3 on a token built with minus one hour. *)
Lemma negative_ttl_is_accepted_witness :
  2 ^ 34 <= Time.ext Sample.a_time < 2 ^ 62
  /\ 0 <= Time.nsec Sample.a_time < 1000000000
  /\ - Time.max_int64 <= - Time.Hour < 0
  /\ exists t,
       newToken (H := Sample.lib) "k" "/query" [] (- Time.Hour) true = Ok t
       /\ Exp (Payload t) <= Iat (Payload t).
Proof.
  assert (H1 : 2 ^ 34 <= Time.ext Sample.a_time < 2 ^ 62)
    by (vm_compute; intuition discriminate).
  assert (H2 : 0 <= Time.nsec Sample.a_time < 1000000000)
    by (vm_compute; intuition discriminate).
  assert (H3 : - Time.max_int64 <= - Time.Hour < 0)
    by (vm_compute; intuition discriminate).
  split; [exact H1|]. split; [exact H2|]. split; [exact H3|].
  destruct (TokenExtras.negative_ttl_is_accepted (H := Sample.lib)
              "k" "/query" [] (- Time.Hour) true (replicate 20 "*"%byte)
              H1 H2 H3 eq_refl) as (t & Hnew & Hexp & _).
  exists t. split; assumption.
Defined.

(** X2 on two tokens built at two calls. *)
Lemma tokens_differ_witness :
  exists t1 t2,
    newToken (H := Sample.lib) "k" "/query" [] Time.Hour false = Ok t1
    /\ newToken (H := Sample2.later) "k" "/query" [] Time.Hour false = Ok t2
    /\ Nonce (Payload t1) <> Nonce (Payload t2).
Proof.
  eexists. eexists. split; [reflexivity|]. split; [reflexivity|].
  apply (TokenExtras.tokens_differ Sample.lib Sample2.later
           "k" "k" "/query" "/query" [] [] Time.Hour Time.Hour false false
           _ _ eq_refl eq_refl).
  vm_compute. discriminate.
Defined.

End TokenExtrasWitnesses.

(* ===================================================================== *)
(** * Signing: the heap, the token and the errors after a call *)
(* ===================================================================== *)

Module SigningExtras.
Import Heap Jwt HeapFacts JwtFacts.

(** Erasing a buffer of a longer heap, seen on its first objects. *)
Lemma take_zero_slice_app (h more : heap) (p : loc) :
  take (length h) (zero_slice (h ++ more) p) = zero_slice h p.
Proof.
  destruct (Nat.lt_ge_cases p (length h)) as [Hlt|Hge].
  - rewrite zero_slice_app_l by exact Hlt.
    rewrite <- (zero_slice_length h p). apply take_app_length.
  - assert (Hnone : zero_slice h p = h).
    { unfold zero_slice. rewrite (lookup_ge_None_2 h p Hge). reflexivity. }
    rewrite Hnone. unfold zero_slice.
    destruct ((h ++ more) !! p) as [[buf|z]|];
      rewrite ?take_insert_ge by exact Hge; apply take_app_length.
Qed.

Section WithLibrary.
Context `{GoLib}.

(** The token, the key object and the heap at the end of the type switch,
    case by case. *)
Lemma sign_switch_cases (t : token) (ep : string) (k : PrivateKey) (h : heap) :
  match k with
  | KeyEC _ =>
      snd (fst (fst (sign_switch t ep k h))) = set_Alg t es256
      /\ forall e, fst (fst (fst (sign_switch t ep k h))) = Err e ->
           (e = ErrEncode \/ e = ErrSignEC)
           /\ snd (fst (sign_switch t ep k h)) = k
           /\ snd (sign_switch t ep k h) = h
  | KeyRSA _ =>
      snd (fst (fst (sign_switch t ep k h))) = set_Alg t rs256
      /\ forall e, fst (fst (fst (sign_switch t ep k h))) = Err e ->
           (e = ErrEncode \/ e = ErrSignRSA)
           /\ snd (fst (sign_switch t ep k h)) = k
           /\ snd (sign_switch t ep k h) = h
  | KeyOther => sign_switch t ep k h = (Err ErrCastKeyType, t, k, h)
  end.
Proof.
  destruct k as [key|key|]; [| |reflexivity]; unfold sign_switch.
  - destruct (json_Encode_header _);
      [|split; [reflexivity|intros e [= <-]; auto]].
    destruct (ecdsa_SignASN1 _ _);
      [|split; [reflexivity|intros e [= <-]; auto]].
    unfold big_NewInt, alloc. split; [reflexivity | discriminate].
  - destruct (json_Encode_header _);
      [|split; [reflexivity|intros e [= <-]; auto]].
    destruct (rsa_SignPKCS1v15 _ _);
      [|split; [reflexivity|intros e [= <-]; auto]].
    unfold big_NewInt, alloc. split; [reflexivity | discriminate].
Qed.

(** The token after the body, whatever it returns. *)
Lemma sign_block_tok (t : token) (bl : loc) (h : heap) :
  match parsed (sign_block t bl h), ret (sign_block t bl h) with
  | None, _ => tok (sign_block t bl h) = t
  | Some _, Err ErrEncode =>
      tok (sign_block t bl h) = t
      \/ tok (sign_block t bl h) = set_Alg t es256
      \/ tok (sign_block t bl h) = set_Alg t rs256
  | Some (KeyEC _), _ => tok (sign_block t bl h) = set_Alg t es256
  | Some (KeyRSA _), _ => tok (sign_block t bl h) = set_Alg t rs256
  | Some KeyOther, _ => tok (sign_block t bl h) = t
  end.
Proof.
  unfold sign_block.
  destruct (parse_private_key _) as [numbers|]; [|reflexivity].
  destruct (new_key h numbers) as [k h1].
  destruct (json_Encode_payload _) as [pj|];
    [|cbn [parsed ret tok]; destruct k; left; reflexivity].
  pose proof (sign_switch_cases t (Base64.EncodeToString pj) k h1) as Hc.
  destruct (sign_switch _ _ _ _) as [[[r t'] k'] h2].
  cbn [fst snd] in Hc.
  destruct k as [key|key|].
  - destruct Hc as [-> Herr].
    destruct r as [[ss sg]|e]; cbn [parsed ret tok]; [reflexivity|].
    destruct (Herr e eq_refl) as [[-> | ->] _]; auto.
  - destruct Hc as [-> Herr].
    destruct r as [[ss sg]|e]; cbn [parsed ret tok]; [reflexivity|].
    destruct (Herr e eq_refl) as [[-> | ->] _]; auto.
  - injection Hc as -> -> -> ->. reflexivity.
Qed.

(** An error return leaves the key object as the parser built it. *)
Lemma sign_block_Err_key (t : token) (bl : loc) (h : heap) (e : error) :
  ret (sign_block t bl h) = Err e ->
  key (sign_block t bl h) = parsed (sign_block t bl h)
  /\ match e with
     | ErrSignEC => exists k, parsed (sign_block t bl h) = Some (KeyEC k)
     | ErrSignRSA => exists k, parsed (sign_block t bl h) = Some (KeyRSA k)
     | ErrCastKeyType => parsed (sign_block t bl h) = Some KeyOther
     | ErrDeduceKeyType => parsed (sign_block t bl h) = None
     | ErrEncode => True
     | ErrNotPEM | ErrRandom => False
     end.
Proof.
  unfold sign_block.
  destruct (parse_private_key _) as [numbers|];
    [|intros [= <-]; split; reflexivity].
  destruct (new_key h numbers) as [k h1].
  destruct (json_Encode_payload _) as [pj|];
    [|intros [= <-]; split; [reflexivity | exact I]].
  pose proof (sign_switch_cases t (Base64.EncodeToString pj) k h1) as Hc.
  destruct (sign_switch _ _ _ _) as [[[r t'] k'] h2].
  cbn [fst snd] in Hc.
  destruct r as [[ss sg]|e']; cbn [ret key parsed]; [discriminate|].
  intros [= ->].
  destruct k as [k0|k0|].
  - destruct Hc as [_ Herr]. destruct (Herr e eq_refl) as ([-> | ->] & -> & _);
      split; eauto.
  - destruct Hc as [_ Herr]. destruct (Herr e eq_refl) as ([-> | ->] & -> & _);
      split; eauto.
  - injection Hc as -> _ -> _. split; reflexivity.
Qed.

(** The token after the call, by the key that was parsed and the pair
    returned. *)
Lemma signAndFormat_tok_cases (t : token) (p : loc) (h : heap) :
  match parsed (signAndFormat t p h), ret (signAndFormat t p h) with
  | None, _ => tok (signAndFormat t p h) = t
  | Some _, Err ErrEncode =>
      tok (signAndFormat t p h) = t
      \/ tok (signAndFormat t p h) = set_Alg t es256
      \/ tok (signAndFormat t p h) = set_Alg t rs256
  | Some (KeyEC _), _ => tok (signAndFormat t p h) = set_Alg t es256
  | Some (KeyRSA _), _ => tok (signAndFormat t p h) = set_Alg t rs256
  | Some KeyOther, _ => tok (signAndFormat t p h) = t
  end.
Proof.
  rewrite signAndFormat_parsed, signAndFormat_ret, signAndFormat_tok.
  destruct (pem_Decode (read_bytes h p)) as [der|] eqn:Hd.
  - rewrite (sign_pem_decoded _ _ _ _ Hd). cbn [with_mem parsed ret tok].
    apply sign_block_tok.
  - rewrite (sign_pem_not_pem _ _ _ Hd). reflexivity.
Qed.

(** What an error says about the key that was parsed. *)
Lemma signAndFormat_Err_key (t : token) (p : loc) (h : heap) (e : error) :
  ret (signAndFormat t p h) = Err e ->
  key (signAndFormat t p h) = parsed (signAndFormat t p h)
  /\ match e with
     | ErrSignEC => exists k, parsed (signAndFormat t p h) = Some (KeyEC k)
     | ErrSignRSA => exists k, parsed (signAndFormat t p h) = Some (KeyRSA k)
     | ErrCastKeyType => parsed (signAndFormat t p h) = Some KeyOther
     | ErrDeduceKeyType | ErrNotPEM => parsed (signAndFormat t p h) = None
     | ErrEncode => True
     | ErrRandom => False
     end.
Proof.
  rewrite signAndFormat_parsed, signAndFormat_ret, signAndFormat_key.
  destruct (pem_Decode (read_bytes h p)) as [der|] eqn:Hd.
  - rewrite (sign_pem_decoded _ _ _ _ Hd). cbn [with_mem parsed ret key].
    intros Herr. destruct (sign_block_Err_key _ _ _ _ Herr) as [Hk Hcase].
    split; [exact Hk|]. destruct e; try exact Hcase. destruct Hcase.
  - rewrite (sign_pem_not_pem _ _ _ Hd). cbn [ret parsed key].
    intros [= <-]. split; reflexivity.
Qed.

(** X4.  Of the byte slices and big integers that exist before a call,
    [signAndFormat] changes none, on any return path, except that with
    [shouldCleanKey] the bytes of the buffer passed in are zero
    afterwards.  Of the token it changes [Header.Alg] and nothing else. *)
Theorem buffers_and_integers_kept (t : token) (p : loc) (h : heap) :
  (forall q c, h !! q = Some c ->
     q <> p \/ shouldCleanKey t = false ->
     mem (signAndFormat t p h) !! q = Some c)
  /\ take (length h) (mem (signAndFormat t p h))
     = (if shouldCleanKey t then zero_slice h p else h)
  /\ tok (signAndFormat t p h)
     = set_Alg t (Alg (Header (tok (signAndFormat t p h)))).
Proof.
  assert (Htake : take (length h) (mem (signAndFormat t p h))
                  = (if shouldCleanKey t then zero_slice h p else h)).
  { rewrite signAndFormat_mem.
    destruct (pem_Decode (read_bytes h p)) as [der|] eqn:Hd.
    - destruct (sign_pem_mem t p h der Hd) as [more ->].
      destruct (shouldCleanKey t);
        [apply take_zero_slice_app | apply take_app_length].
    - rewrite (sign_pem_not_pem _ _ _ Hd). cbn [mem].
      destruct (shouldCleanKey t);
        [rewrite <- (zero_slice_length h p) | ]; apply firstn_all. }
  split; [|split; [exact Htake|]].
  - intros q c Hq Hother.
    assert (Hlt : (q < length h)%nat) by (apply lookup_lt_is_Some; eauto).
    rewrite <- (lookup_take_lt _ (length h) q) by exact Hlt.
    rewrite Htake. destruct (shouldCleanKey t).
    + destruct Hother as [Hne | Hf]; [|discriminate Hf].
      rewrite zero_slice_other by (intros ->; apply Hne; reflexivity).
      exact Hq.
    + exact Hq.
  - pose proof (signAndFormat_tok_cases t p h) as Hc.
    assert (Hthree : tok (signAndFormat t p h) = t
                     \/ tok (signAndFormat t p h) = set_Alg t es256
                     \/ tok (signAndFormat t p h) = set_Alg t rs256).
    { destruct (parsed (signAndFormat t p h)) as [[k|k|]|],
        (ret (signAndFormat t p h)) as [s|[]]; auto. }
    destruct Hthree as [-> | [-> | ->]]; try reflexivity.
    destruct t as [[a ty] pl c]. reflexivity.
Qed.

(** X5.  [signAndFormat] changes nothing of the token but [Header.Alg]:
    the payload, [typ] and [shouldCleanKey] are as before.  [alg] is
    written before signing, so a call that fails in the signer leaves
    ES256 or RS256 in the header, while a call that fails for the format
    of the key leaves the token as it was. *)
Theorem token_after_signing (t : token) (p : loc) (h : heap) :
  Payload (tok (signAndFormat t p h)) = Payload t
  /\ shouldCleanKey (tok (signAndFormat t p h)) = shouldCleanKey t
  /\ Typ (Header (tok (signAndFormat t p h))) = Typ (Header t)
  /\ (Alg (Header (tok (signAndFormat t p h))) = Alg (Header t)
      \/ Alg (Header (tok (signAndFormat t p h))) = es256
      \/ Alg (Header (tok (signAndFormat t p h))) = rs256)
  /\ (ret (signAndFormat t p h) = Err ErrSignEC ->
      tok (signAndFormat t p h) = set_Alg t es256)
  /\ (ret (signAndFormat t p h) = Err ErrSignRSA ->
      tok (signAndFormat t p h) = set_Alg t rs256)
  /\ (forall e, ret (signAndFormat t p h) = Err e ->
      key_format_error e = true -> tok (signAndFormat t p h) = t).
Proof.
  pose proof (signAndFormat_tok_cases t p h) as Hc.
  assert (Hthree : tok (signAndFormat t p h) = t
                   \/ tok (signAndFormat t p h) = set_Alg t es256
                   \/ tok (signAndFormat t p h) = set_Alg t rs256).
  { destruct (parsed (signAndFormat t p h)) as [[k|k|]|],
      (ret (signAndFormat t p h)) as [s|[]]; auto. }
  repeat split.
  - destruct Hthree as [-> | [-> | ->]]; reflexivity.
  - destruct Hthree as [-> | [-> | ->]]; reflexivity.
  - destruct Hthree as [-> | [-> | ->]]; reflexivity.
  - destruct Hthree as [-> | [-> | ->]]; auto.
  - intros Herr. destruct (signAndFormat_Err_key _ _ _ _ Herr) as [_ [k Hk]].
    rewrite Hk, Herr in Hc. exact Hc.
  - intros Herr. destruct (signAndFormat_Err_key _ _ _ _ Herr) as [_ [k Hk]].
    rewrite Hk, Herr in Hc. exact Hc.
  - intros e Herr Hfmt.
    destruct (signAndFormat_Err_key _ _ _ _ Herr) as [_ Hk].
    destruct e; try discriminate Hfmt; rewrite Hk in Hc; try exact Hc.
    rewrite Herr in Hc. exact Hc.
Qed.

(** X6.  A PKCS#8 structure around a key that is neither EC nor RSA is
    accepted by the parser and rejected by the type switch: the call fails
    with the key-format error of the cast, and the token is as before. *)
Theorem other_key_kind_is_rejected (t : token) (p : loc) (h : heap)
    (der pj : list byte) :
  pem_Decode (read_bytes h p) = Some der ->
  x509_ParseECPrivateKey der = None ->
  x509_ParsePKCS1PrivateKey der = None ->
  x509_ParsePKCS8PrivateKey der = Some ParsedOther ->
  json_Encode_payload (Payload t) = Some pj ->
  ret (signAndFormat t p h) = Err ErrCastKeyType
  /\ key_format_error ErrCastKeyType = true
  /\ key (signAndFormat t p h) = Some KeyOther
  /\ tok (signAndFormat t p h) = t.
Proof.
  intros Hd He Hr H8 Hj.
  rewrite signAndFormat_ret, signAndFormat_key, signAndFormat_tok.
  rewrite (sign_pem_decoded _ _ _ _ Hd). cbn [with_mem ret key tok].
  unfold sign_block. rewrite (read_bytes_new _ der []).
  unfold parse_private_key. rewrite He, Hr, H8. cbn [new_key].
  rewrite Hj. repeat split; reflexivity.
Qed.

(** X7.  When the signer fails, the call returns before the assignments
    to the key: the key object is the one the parser built, of the kind
    the error names, and it still holds every integer of the private
    key. *)
Theorem signing_failure_keeps_the_key (t : token) (p : loc) (h : heap)
    (e : error) :
  ret (signAndFormat t p h) = Err e ->
  e = ErrSignEC \/ e = ErrSignRSA ->
  exists der k,
    pem_Decode (read_bytes h p) = Some der
    /\ parsed (signAndFormat t p h) = Some k
    /\ key (signAndFormat t p h) = Some k
    /\ (e = ErrSignEC -> exists a, k = KeyEC a)
    /\ (e = ErrSignRSA -> exists a, k = KeyRSA a)
    /\ parse_private_key der
       = Some (key_values (mem (signAndFormat t p h)) k).
Proof.
  intros Herr Hsign.
  destruct (signAndFormat_Err_key _ _ _ _ Herr) as [Hkey Hcase].
  destruct (pem_Decode (read_bytes h p)) as [der|] eqn:Hd.
  2:{ rewrite signAndFormat_ret, (sign_pem_not_pem _ _ _ Hd) in Herr.
      injection Herr as <-. destruct Hsign; discriminate. }
  exists der.
  destruct Hsign as [-> | ->]; destruct Hcase as [a Ha].
  - exists (KeyEC a).
    split; [reflexivity|]. split; [exact Ha|].
    split; [rewrite Hkey; exact Ha|].
    split; [intros _; exists a; reflexivity|].
    split; [discriminate|].
    apply parsed_numbers_remain; assumption.
  - exists (KeyRSA a).
    split; [reflexivity|]. split; [exact Ha|].
    split; [rewrite Hkey; exact Ha|].
    split; [discriminate|].
    split; [intros _; exists a; reflexivity|].
    apply parsed_numbers_remain; assumption.
Qed.

(** X8.  A buffer that a call with [shouldCleanKey] has returned from
    cannot be signed with again: as [pem.Decode] finds no block in bytes
    that are all zero, every later call on it fails with the error of a
    key that is not PEM. *)
Theorem cleaned_buffer_cannot_be_reused (t : token) (p : loc) (h : heap)
    (buf : list byte) :
  h !! p = Some (CBytes buf) ->
  shouldCleanKey t = true ->
  (forall n, pem_Decode (replicate n x00) = None) ->
  forall t', ret (signAndFormat t' p (mem (signAndFormat t p h)))
             = Err ErrNotPEM.
Proof.
  intros Hp Hclean Hzero t'.
  pose proof (SigningClaims.pem_erased t p h buf Hp Hclean) as Hmem.
  rewrite signAndFormat_ret. rewrite sign_pem_not_pem; [reflexivity|].
  unfold read_bytes. rewrite Hmem. apply Hzero.
Qed.

(** X9.  A token that [signAndFormat] returns reads back: its three
    pieces decode, as unpadded base64url, to the JSON of the header, to
    the JSON of the payload and to the bytes the signer returned for the
    digest of the first two pieces joined by a dot. *)
Theorem token_reads_back (t : token) (p : loc) (h : heap) (s : string) :
  ret (signAndFormat t p h) = Ok s ->
  exists hseg pseg sseg sig,
    Strings.Split s = [hseg; pseg; sseg]
    /\ Codec.DecodeString hseg
       = json_Encode_header (Header (tok (signAndFormat t p h)))
    /\ Codec.DecodeString pseg = json_Encode_payload (Payload t)
    /\ Codec.DecodeString sseg = Some sig
    /\ ((exists e, ecdsa_SignASN1 e
                     (digest (String.append hseg (String.append "." pseg)))
                   = Some sig)
        \/ (exists r, rsa_SignPKCS1v15 r
                        (digest (String.append hseg (String.append "." pseg)))
                      = Some sig)).
Proof.
  intros Hok.
  destruct (signAndFormat_Ok_inv _ _ _ _ Hok)
    as (der & numbers & hj & pj & sg & _ & _ & Hh & Hj & Hs & Hcase).
  exists (Base64.EncodeToString hj), (Base64.EncodeToString pj),
    (Base64.EncodeToString sg), sg.
  rewrite Hh, Hj, !CodecFacts.DecodeString_EncodeToString.
  split.
  { subst s. apply StringsFacts.Split_three;
      apply StringsFacts.alphabet_no_dot, Base64Facts.EncodeToString_chars. }
  repeat (split; [reflexivity|]).
  unfold digest.
  destruct numbers as [e|r|]; [left; exists e|right; exists r|contradiction];
    apply Hcase.
Qed.

End WithLibrary.

End SigningExtras.

Module SigningExtrasWitnesses.
Import Heap Jwt.

(** X6 on a PKCS#8 structure around an Ed25519 key. *)
Lemma other_key_kind_is_rejected_witness :
  Sample.decode_pem (read_bytes Sample2.a_heap Sample2.other_kind_pem)
  = Some (Bytes.of_string "8 ED25519")
  /\ Sample.parse_pkcs8 (Bytes.of_string "8 ED25519") = Some ParsedOther
  /\ ret Sample2.other_kind_run = Err ErrCastKeyType.
Proof.
  split; [reflexivity|]. split; [reflexivity|].
  exact (proj1 (SigningExtras.other_key_kind_is_rejected (H := Sample.lib)
                  (Sample.a_token false) Sample2.other_kind_pem Sample2.a_heap
                  (Bytes.of_string "8 ED25519")
                  (match Sample.json_payload (Payload (Sample.a_token false)) with
                   | Some pj => pj
                   | None => []
                   end)
                  eq_refl eq_refl eq_refl eq_refl eq_refl)).
Defined.

(** X7 on the call with the RSA key that is too short to sign with. *)
Lemma signing_failure_keeps_the_key_witness :
  ret Sample.short_rsa_run = Err ErrSignRSA
  /\ exists k, key Sample.short_rsa_run = Some k
               /\ key_values (mem Sample.short_rsa_run) k
                  = ParsedRSA Sample.a_short_rsa_key.
Proof.
  split; [reflexivity|].
  destruct (SigningExtras.signing_failure_keeps_the_key (H := Sample.lib)
              (Sample.a_token false) Sample.short_rsa_pem Sample.a_heap
              ErrSignRSA eq_refl (or_intror eq_refl))
    as (der & k & Hd & _ & Hk & _ & _ & Hvals).
  exists k. split; [exact Hk|].
  injection Hd as <-.
  change (Some (ParsedRSA Sample.a_short_rsa_key)
          = Some (key_values (mem Sample.short_rsa_run) k)) in Hvals.
  injection Hvals as Hv. symmetry. exact Hv.
Defined.

(** X8 on the buffer of the RSA key from a loader. *)
Lemma cleaned_buffer_cannot_be_reused_witness :
  Sample.a_heap !! Sample.rsa_pem = Some (CBytes (Bytes.of_string "-RSA KEY"))
  /\ (forall n, Sample.decode_pem (replicate n x00) = None)
  /\ is_ok (ret Sample.rsa_run) = true
  /\ ret Sample2.second_rsa_run = Err ErrNotPEM.
Proof.
  assert (Hzero : forall n, Sample.decode_pem (replicate n x00) = None)
    by (intros [|n]; reflexivity).
  split; [reflexivity|]. split; [exact Hzero|]. split; [reflexivity|].
  exact (SigningExtras.cleaned_buffer_cannot_be_reused (H := Sample.lib)
           (Sample.a_token true) Sample.rsa_pem Sample.a_heap
           (Bytes.of_string "-RSA KEY") eq_refl eq_refl Hzero
           (Sample.a_token true)).
Defined.

(** X9 on the token signed with the EC key. *)
Lemma token_reads_back_witness :
  ret Sample.ec_run = Ok Sample.ec_token_text
  /\ exists hseg pseg sseg,
       Strings.Split Sample.ec_token_text = [hseg; pseg; sseg]
       /\ Codec.DecodeString pseg
          = Sample.json_payload (Payload (Sample.a_token false)).
Proof.
  assert (Hok : ret Sample.ec_run = Ok Sample.ec_token_text)
    by (vm_compute; reflexivity).
  split; [exact Hok|].
  destruct (SigningExtras.token_reads_back (H := Sample.lib)
              (Sample.a_token false) Sample.ec_pem Sample.a_heap
              Sample.ec_token_text Hok)
    as (hseg & pseg & sseg & sg & Hsplit & _ & Hp & _).
  exists hseg, pseg, sseg. split; [exact Hsplit | exact Hp].
Defined.

End SigningExtrasWitnesses.

(* ===================================================================== *)
(** * The client: construction and sequences of calls *)
(* ===================================================================== *)

Module ClientExtras.
Import Heap Wallet Calls.

Lemma New_fields (o : Options) (rest : list (option Options)) (c : Client) :
  New (Some o :: rest) = Some c ->
  creds c = None
  /\ CredentialsLoaderFunc (options c) = CredentialsLoaderFunc o
  /\ Debug (options c) = Debug o
  /\ HTTPClient (options c)
     = Some match HTTPClient o with
            | Some hc =>
                if Timeout hc <=? 0
                then {| Timeout := 10 * Time.Second; Transport := Transport hc |}
                else hc
            | None => {| Timeout := 10 * Time.Second; Transport := 0 |}
            end.
Proof.
  unfold New. intros [= <-]. cbn [options creds].
  destruct o as [l [[to tr]|] m r d];
    repeat (cbv beta iota zeta delta
              [set_HTTPClient set_MaxReadRetry set_RetryInterval defaultOptions
               HTTPClient MaxReadRetry RetryInterval CredentialsLoaderFunc
               Debug Timeout Transport];
            match goal with
            | |- context [if ?b then _ else _] => destruct b
            end);
    repeat split.
Qed.

(** Options that need no default come back as they are. *)
Lemma New_normal (o : Options) (hc : http_Client) :
  HTTPClient o = Some hc -> 0 < Timeout hc ->
  0 < MaxReadRetry o -> 0 < RetryInterval o ->
  New [Some o] = Some {| options := o; creds := None |}.
Proof.
  intros Hhc Ht Hm Hr. unfold New. rewrite Hhc. cbv zeta. rewrite Hhc.
  destruct (Z.leb_spec (Timeout hc) 0); [lia|].
  destruct (Z.leb_spec (MaxReadRetry o) 0); [lia|].
  destruct (Z.leb_spec (RetryInterval o) 0); [lia|]. reflexivity.
Qed.

Lemma SetCredentials_twice (c : Client) (k1 k2 : string) (p1 p2 : loc) :
  fst (SetCredentials (fst (SetCredentials c k1 p1)) k2 p2)
  = fst (SetCredentials c k2 p2).
Proof.
  unfold SetCredentials.
  destruct (CredentialsLoaderFunc (options c)) eqn:Hl; cbn [fst options].
  - rewrite Hl. reflexivity.
  - rewrite Hl. reflexivity.
Qed.

(** The client after a sequence of calls, for any client. *)
Lemma SetCredentials_all_spec (calls : list (string * loc)) : forall c : Client,
  options (SetCredentials_all c calls) = options c
  /\ creds (SetCredentials_all c calls)
     = match CredentialsLoaderFunc (options c), last calls with
       | None, Some (k, p) => Some {| keyID := k; privateKeyPEM := p |}
       | _, _ => creds c
       end.
Proof.
  induction calls as [|[k p] calls IH]; intros c.
  - cbn. destruct (CredentialsLoaderFunc (options c)); split; reflexivity.
  - cbn [SetCredentials_all].
    destruct (IH (fst (SetCredentials c k p))) as [Ho Hc].
    rewrite Ho, Hc, ClientClaims.SetCredentials_options.
    split; [reflexivity|].
    rewrite last_cons. unfold SetCredentials.
    destruct (CredentialsLoaderFunc (options c)); cbn [fst creds].
    + reflexivity.
    + destruct (last calls) as [[k0 p0]|]; reflexivity.
Qed.

(** X10.  The client [New] returns always has an HTTP client with a
    positive timeout: the one given when its timeout is positive, the one
    given with its timeout set to ten seconds when it is not, and a new
    one with a timeout of ten seconds when none is given. *)
Theorem New_http_client (opts : list (option Options)) (c : Client) :
  New opts = Some c ->
  exists hc,
    HTTPClient (options c) = Some hc
    /\ 0 < Timeout hc
    /\ match opts with
       | Some o :: _ =>
           match HTTPClient o with
           | Some given =>
               Transport hc = Transport given
               /\ (0 < Timeout given -> hc = given)
               /\ (Timeout given <= 0 -> Timeout hc = 10 * Time.Second)
           | None => hc = {| Timeout := 10 * Time.Second; Transport := 0 |}
           end
       | _ => hc = {| Timeout := 10 * Time.Second; Transport := 0 |}
       end.
Proof.
  intros Hnew. destruct opts as [|[o|] rest]; [| |discriminate Hnew].
  - injection Hnew as <-. eexists. repeat split.
  - destruct (New_fields o rest c Hnew) as (_ & _ & _ & Hhc).
    eexists. split; [exact Hhc|].
    destruct (HTTPClient o) as [given|]; [|repeat split].
    destruct (Z.leb_spec (Timeout given) 0) as [Hle|Hgt]; cbn [Timeout Transport].
    + split; [reflexivity|]. split; [reflexivity|].
      split; [intros; lia | reflexivity].
    + split; [exact Hgt|]. split; [reflexivity|].
      split; [reflexivity | intros; lia].
Qed.

(** X11.  [New] reads its first argument only; it keeps the loader and
    the debug flag of the options it is given, and the client it returns
    has no stored credentials. *)
Theorem New_keeps_loader_and_debug (opts : list (option Options)) (c : Client) :
  New opts = Some c ->
  New opts = New (take 1 opts)
  /\ creds c = None
  /\ CredentialsLoaderFunc (options c)
     = match opts with
       | Some o :: _ => CredentialsLoaderFunc o
       | _ => None
       end
  /\ Debug (options c)
     = match opts with
       | Some o :: _ => Debug o
       | _ => false
       end.
Proof.
  intros Hnew. destruct opts as [|[o|] rest]; [| |discriminate Hnew].
  - injection Hnew as <-. repeat split.
  - destruct (New_fields o rest c Hnew) as (Hc & Hl & Hd & _).
    repeat split; assumption.
Qed.

(** X12.  The options of a client that [New] returned need no default:
    [New] on them returns the same client. *)
Theorem New_is_idempotent (opts : list (option Options)) (c : Client) :
  New opts = Some c -> New [Some (options c)] = Some c.
Proof.
  intros Hnew.
  assert (Hshape : creds c = None
                   /\ (exists hc, HTTPClient (options c) = Some hc
                                   /\ 0 < Timeout hc)
                   /\ 0 < MaxReadRetry (options c)
                   /\ 0 < RetryInterval (options c)).
  { destruct opts as [|[o|] rest]; [| |discriminate Hnew].
    - injection Hnew as <-. split; [reflexivity|].
      split; [eexists; split; reflexivity|]. split; reflexivity.
    - destruct (New_fields o rest c Hnew) as (Hc & _ & _ & Hhc).
      destruct (ClientClaims.New_retry_options o rest c Hnew) as [Hm Hr].
      split; [exact Hc|]. split.
      + eexists. split; [exact Hhc|].
        destruct (HTTPClient o) as [given|]; [|reflexivity].
        destruct (Z.leb_spec (Timeout given) 0); [reflexivity | assumption].
      + rewrite Hm, Hr. split.
        * destruct (Z.leb_spec (MaxReadRetry o) 0); lia.
        * destruct (Z.leb_spec (RetryInterval o) 0); [reflexivity | lia]. }
  destruct Hshape as (Hc & (hc & Hhc & Ht) & Hm & Hr).
  rewrite (New_normal (options c) hc Hhc Ht Hm Hr).
  destruct c as [o cr]. cbn in Hc. subst cr. reflexivity.
Qed.

(** X13.  After [New] and any number of calls of [SetCredentials], the
    options are those [New] left; the stored credentials are those of the
    last call when no loader is configured, and there are none when a
    loader is configured or no call was made. *)
Theorem client_after_calls (opts : list (option Options)) (c : Client)
    (calls : list (string * loc)) :
  New opts = Some c ->
  options (SetCredentials_all c calls) = options c
  /\ creds (SetCredentials_all c calls)
     = match CredentialsLoaderFunc (options c), last calls with
       | None, Some (k, p) => Some {| keyID := k; privateKeyPEM := p |}
       | _, _ => None
       end.
Proof.
  intros Hnew.
  assert (Hc : creds c = None).
  { destruct opts as [|[o|] rest]; [| |discriminate Hnew].
    - injection Hnew as <-. reflexivity.
    - apply (New_fields o rest c Hnew). }
  destruct (SetCredentials_all_spec calls c) as [Ho Hcr].
  split; [exact Ho|]. rewrite Hcr, Hc.
  destruct (CredentialsLoaderFunc (options c)); [reflexivity|].
  destruct (last calls) as [[k p]|]; reflexivity.
Qed.

(** X14.  [SetCredentials] writes to the log only on a client with a
    loader and the debug flag, and then one fixed line for each call: no
    key identifier and no key byte is ever logged. *)
Theorem SetCredentials_log_lines (c : Client) (calls : list (string * loc)) :
  SetCredentials_log c calls
  = match CredentialsLoaderFunc (options c) with
    | Some _ =>
        if Debug (options c)
        then replicate (length calls)
               "INFO: ignoring SetCredentials call as CredentialsLoaderFunc was set to the client."%string
        else []
    | None => []
    end.
Proof.
  revert c. induction calls as [|[k p] calls IH]; intros c.
  - destruct (CredentialsLoaderFunc (options c)); [destruct (Debug _)|];
      reflexivity.
  - cbn [SetCredentials_log length replicate]. rewrite IH.
    rewrite ClientClaims.SetCredentials_options.
    unfold SetCredentials.
    destruct (CredentialsLoaderFunc (options c)); [destruct (Debug _)|];
      reflexivity.
Qed.

End ClientExtras.

Module ClientExtrasWitnesses.
Import Heap Wallet Calls.

(** X10 on options with an HTTP client without a timeout. *)
Lemma New_http_client_witness :
  New [Some Sample.retry_options] = Some (Sample.new_client Sample.retry_options)
  /\ HTTPClient (options (Sample.new_client Sample.retry_options))
     = Some {| Timeout := 10 * Time.Second; Transport := 1 |}.
Proof.
  split; [reflexivity|].
  destruct (ClientExtras.New_http_client [Some Sample.retry_options]
              (Sample.new_client Sample.retry_options) eq_refl)
    as (hc & Hhc & _ & Htr & _ & Hto).
  rewrite Hhc. destruct hc as [to tr]. cbn in Htr, Hto.
  rewrite Htr, Hto; [reflexivity | lia].
Defined.

(** X11 on the options of the loader test. *)
Lemma New_keeps_loader_and_debug_witness :
  New [Some Sample.loader_options; None]
  = Some (Sample.new_client Sample.loader_options)
  /\ CredentialsLoaderFunc (options (Sample.new_client Sample.loader_options))
     = Some Sample.ec_loader
  /\ Debug (options (Sample.new_client Sample.loader_options)) = true.
Proof.
  split; [reflexivity|].
  destruct (ClientExtras.New_keeps_loader_and_debug
              [Some Sample.loader_options; None]
              (Sample.new_client Sample.loader_options) eq_refl)
    as (_ & _ & Hl & Hd).
  split; [exact Hl | exact Hd].
Defined.

(** X12 on options that leave everything unset. *)
Lemma New_is_idempotent_witness :
  New [Some Sample.no_options] = Some (Sample.new_client Sample.no_options)
  /\ New [Some (options (Sample.new_client Sample.no_options))]
     = Some (Sample.new_client Sample.no_options).
Proof.
  split; [reflexivity|].
  exact (ClientExtras.New_is_idempotent [Some Sample.no_options]
           (Sample.new_client Sample.no_options) eq_refl).
Defined.

(** X13 on two calls, without and with a loader. *)
Lemma client_after_calls_witness :
  New [Some Sample.retry_options] = Some (Sample.new_client Sample.retry_options)
  /\ creds (SetCredentials_all (Sample.new_client Sample.retry_options)
              [("key-1"%string, Sample.rsa_pem); ("key-2"%string, Sample.ec_pem)])
     = Some {| keyID := "key-2"; privateKeyPEM := Sample.ec_pem |}.
Proof.
  split; [reflexivity|].
  exact (proj2 (ClientExtras.client_after_calls [Some Sample.retry_options]
                  (Sample.new_client Sample.retry_options)
                  [("key-1"%string, Sample.rsa_pem);
                   ("key-2"%string, Sample.ec_pem)] eq_refl)).
Defined.

End ClientExtrasWitnesses.
